(** * cothority: transactional store, Calypso contracts, chain configuration

    A shallow embedding of
      - byzcoin/trie/diskdb.go   (the bolt-backed transactional store),
      - calypso/contracts.go     (the Write, Read and long-term-secret contracts),
      - ChainConfigInstance.java (the client of the chain-configuration instance),
    followed by the properties the specification states about them. *)

From Stdlib Require Import ZArith String Strings.Byte List Lia.
From stdpp Require Import base option list gmap fin_sets strings.

Local Open Scope Z_scope.

(** ** Byte sequences *)

(** A Go [[]byte] is a list of bytes; the nil slice and the empty slice are
    both [[]] (the sources only ever test [x == nil || len(x) == 0]). *)
Abbreviation bytes := (list Byte.byte).

#[global] Instance byte_eq_dec : EqDecision Byte.byte := Byte.byte_eq_dec.
#[global] Instance byte_countable : Countable Byte.byte :=
  inj_countable Byte.to_N Byte.of_N Byte.of_to_N.

Definition bytes_of (s : string) : bytes := String.list_byte_of_string s.

(** ** The Go runtime as far as diskdb.go needs it *)

Module Go.

(** [errors.New] returns a pointer to a fresh [errorString]; two error values
    are [==] when they are the same pointer.  An error is therefore its
    address together with its message. *)
Record error := mkError { err_addr : nat; err_msg : string }.

(** The runtime threaded through a call: the next free address, and the
    variables [W] captured by the closures being run. *)
Record runtime (W : Type) := mkRuntime { next : nat; env : W }.
Arguments mkRuntime {W} _ _.
Arguments next {W} _.
Arguments env {W} _.

Definition M (W A : Type) : Type := runtime W -> A * runtime W.

Definition ret {W A} (a : A) : M W A := fun st => (a, st).

Definition bind {W A B} (m : M W A) (k : A -> M W B) : M W B :=
  fun st => let (a, st') := m st in k a st'.

(** [errors.New(msg)] *)
Definition errors_New {W} (msg : string) : M W error :=
  fun st => (mkError (next st) msg, mkRuntime (S (next st)) (env st)).

(** [e1 != e2] on values of the interface type [error]; [None] is [nil]. *)
Definition err_neq (e1 e2 : option error) : bool :=
  match e1, e2 with
  | None, None => false
  | Some a, Some b => negb (Nat.eqb (err_addr a) (err_addr b))
  | _, _ => true
  end.

End Go.

#[global] Instance go_ret {W} : MRet (Go.M W) := @Go.ret W.
#[global] Instance go_bind {W} : MBind (Go.M W) := fun A B k m => Go.bind m k.

(** ** bbolt, the storage engine under diskdb.go

    Only what diskdb.go calls: managed transactions over named buckets.  A
    bucket handle is the bucket's content together with the mode of the
    transaction it came from. *)

Module Bolt.
Import Go.

Record Bucket := mkBucket { writable : bool; data : gmap bytes bytes }.

Record Tx := mkTx { tx_writable : bool; tx_buckets : gmap bytes (gmap bytes bytes) }.

Record DB := mkDB { db_buckets : gmap bytes (gmap bytes bytes) }.

(** Package-level error values: allocated once, at fixed addresses. *)
Definition ErrTxNotWritable : error := mkError 0 "tx not writable".
Definition ErrKeyRequired : error := mkError 1 "key required".
Definition ErrKeyTooLarge : error := mkError 2 "key too large".
Definition ErrValueTooLarge : error := mkError 3 "value too large".

Definition MaxKeySize : Z := 32768.
Definition MaxValueSize : Z := Z.shiftl 1 31 - 2.

(** [tx.Bucket(name)]: nil when the bucket does not exist. *)
Definition Tx_Bucket (tx : Tx) (name : bytes) : option Bucket :=
  mkBucket (tx_writable tx) <$> tx_buckets tx !! name.

(** The handle returned by [tx.Bucket] aliases the transaction: what was
    done through the handle is what the transaction holds under [name]. *)
Definition Tx_store (tx : Tx) (name : bytes) (b : Bucket) : Tx :=
  mkTx (tx_writable tx) (<[name := data b]> (tx_buckets tx)).

Definition Bucket_Get (b : Bucket) (k : bytes) : option bytes := data b !! k.

Definition Bucket_Put (b : Bucket) (k v : bytes) : option error * Bucket :=
  if negb (writable b) then (Some ErrTxNotWritable, b)
  else if (Z.of_nat (length k) =? 0) then (Some ErrKeyRequired, b)
  else if (MaxKeySize <? Z.of_nat (length k)) then (Some ErrKeyTooLarge, b)
  else if (MaxValueSize <? Z.of_nat (length v)) then (Some ErrValueTooLarge, b)
  else (None, mkBucket (writable b) (<[k := v]> (data b))).

Definition Bucket_Delete (b : Bucket) (k : bytes) : option error * Bucket :=
  if negb (writable b) then (Some ErrTxNotWritable, b)
  else (None, mkBucket (writable b) (delete k (data b))).

(** [db.Update(fn)]: [fn] runs in a read-write transaction, which is
    committed when [fn] returns nil and rolled back otherwise; the error of
    [fn] is returned. *)
Definition Update {W} (d : DB) (fn : Tx -> M W (option error * Tx))
  : M W (option error * DB) :=
  '(err, tx) ← fn (mkTx true (db_buckets d));
  match err with
  | Some e => mret (Some e, d)
  | None => mret (None, mkDB (tx_buckets tx))
  end.

(** [db.View(fn)]: [fn] runs in a read-only transaction, which is always
    rolled back. *)
Definition View {W} (d : DB) (fn : Tx -> M W (option error * Tx))
  : M W (option error * DB) :=
  '(err, _) ← fn (mkTx false (db_buckets d));
  mret (err, d).

End Bolt.

(** ** byzcoin/trie/diskdb.go *)

Module Trie.
Import Go.

Record diskDB := mkDiskDB { db : Bolt.DB; bucket : bytes }.

Record diskBucket := mkDiskBucket { b : Bolt.Bucket }.

Definition NewDiskDB (d : Bolt.DB) (name : bytes) : diskDB := mkDiskDB d name.

(** A transaction function, [func(bucket) error]: it acts on the bucket it
    is handed and on the variables it has captured. *)
Definition txfn (W : Type) : Type := diskBucket -> M W (option error * diskBucket).

Definition Update {W} (r : diskDB) (f : txfn W) : M W (option error * diskDB) :=
  '(err, d) ← Bolt.Update (db r) (fun tx =>
     match Bolt.Tx_Bucket tx (bucket r) with
     | None =>
         e ← errors_New "bucket does not exist";
         mret (Some e, tx)
     | Some bk =>
         '(err, bk') ← f (mkDiskBucket bk);
         mret (err, Bolt.Tx_store tx (bucket r) (b bk'))
     end);
  mret (err, mkDiskDB d (bucket r)).

Definition View {W} (r : diskDB) (f : txfn W) : M W (option error * diskDB) :=
  '(err, d) ← Bolt.View (db r) (fun tx =>
     match Bolt.Tx_Bucket tx (bucket r) with
     | None =>
         e ← errors_New "bucket does not exist";
         mret (Some e, tx)
     | Some bk =>
         '(err, bk') ← f (mkDiskBucket bk);
         mret (err, Bolt.Tx_store tx (bucket r) (b bk'))
     end);
  mret (err, mkDiskDB d (bucket r)).

Definition UpdateDryRun {W} (r : diskDB) (f : txfn W) : M W (option error * diskDB) :=
  dryRunErr ← errors_New "this is a dry-run";
  '(err, d) ← Bolt.Update (db r) (fun tx =>
     match Bolt.Tx_Bucket tx (bucket r) with
     | None =>
         e ← errors_New "bucket does not exist";
         mret (Some e, tx)
     | Some bk =>
         '(err, bk') ← f (mkDiskBucket bk);
         match err with
         | Some e => mret (Some e, Bolt.Tx_store tx (bucket r) (b bk'))
         | None => mret (Some dryRunErr, Bolt.Tx_store tx (bucket r) (b bk'))
         end
     end);
  if err_neq err (Some dryRunErr) then mret (err, mkDiskDB d (bucket r))
  else mret (None, mkDiskDB d (bucket r)).

Definition diskBucket_Delete (r : diskBucket) (k : bytes) : option error * diskBucket :=
  let (e, bk) := Bolt.Bucket_Delete (b r) k in (e, mkDiskBucket bk).

Definition diskBucket_Put (r : diskBucket) (k v : bytes) : option error * diskBucket :=
  let (e, bk) := Bolt.Bucket_Put (b r) k v in (e, mkDiskBucket bk).

Definition diskBucket_Get (r : diskBucket) (k : bytes) : option bytes :=
  Bolt.Bucket_Get (b r) k.

(** The condition the specification calls StoreUnavailable. *)
Definition StoreUnavailable (e : error) : Prop :=
  err_msg e = "bucket does not exist"%string.

(** What Go guarantees of a function value that exists when the store is
    entered with [n] as the next free address: an error it hands back was
    allocated before that moment, or by the function itself while it ran. *)
Definition alloc_respecting {W} (n : nat) (f : txfn W) : Prop :=
  forall bk st, (n <= next st)%nat ->
    let '((err, _), st') := f bk st in
    (next st <= next st')%nat /\
    forall e, err = Some e ->
      (err_addr e < n)%nat \/ (next st <= err_addr e < next st')%nat.

(** Unfolding a transaction down to the runtime. *)
Ltac run :=
  unfold UpdateDryRun, Update, View, Bolt.Update, Bolt.View, Bolt.Tx_Bucket,
    mbind, mret, go_bind, go_ret, Go.bind, Go.ret, errors_New; cbn -[Nat.eqb].

End Trie.

(** ** package byzcoin, as contracts.go uses it *)

Module Byzcoin.

(** contracts.go builds errors from messages and never compares them: an
    error is its message ([err.Error()]), and [nil] is [None]. *)
Definition error := string.
Definition errors_New (msg : string) : error := msg.

Inductive StateAction := Create | Update | Remove.

(** Modelled from the spec: the struct [StateChange] and [NewStateChange]
    are declared in package byzcoin, which is not among the sources; a
    state change is {Action, InstanceID, ContractID, Value, PolicyID}. *)
Record StateChange := NewStateChange {
  Action : StateAction;
  SC_InstanceID : bytes;
  SC_ContractID : string;
  SC_Value : bytes;
  SC_DarcID : bytes
}.

(** Modelled from the spec: the structs [Coin] and [Argument] are declared in
    package byzcoin, which is not among the sources; a coin is a named amount,
    an argument a named byte sequence. *)
Record Coin := mkCoin { Coin_Name : bytes; Coin_Value : Z }.

Record Argument := mkArgument { Name : string; Value : bytes }.

(** Modelled from the spec: [Arguments.Search] is declared in package
    byzcoin, which is not among the sources; it is the value of the first
    argument of that name, and nil when there is none. *)
Fixpoint Search (args : list Argument) (name : string) : bytes :=
  match args with
  | [] => []
  | a :: rest => if String.eqb (Name a) name then Value a else Search rest name
  end.

(** Modelled from the spec: the structs [Spawn] and [Invoke] are declared in
    package byzcoin, which is not among the sources: Spawn(contractID, args)
    and Invoke(command, args). *)
Record Spawn_t := mkSpawn { Spawn_ContractID : string; Spawn_Args : list Argument }.
Record Invoke_t := mkInvoke { Command : string; Invoke_Args : list Argument }.

(** Modelled from the spec: the struct [Instruction] is declared in package
    byzcoin, which is not among the sources.  [Spawn] and [Invoke] are
    pointers, nil unless the instruction is of that kind; the signer
    counters are carried through unchanged. *)
Record Instruction := mkInstruction {
  InstanceID : bytes;
  Spawn : option Spawn_t;
  Invoke : option Invoke_t;
  SignerCounter : list Z
}.

(** Modelled from the spec: the state trie is implemented in package byzcoin,
    which is not among the sources; per instance it holds the value, the
    version, the contract tag and the identifier of the governing policy. *)
Record StateValue := mkStateValue {
  sv_Value : bytes;
  sv_Version : Z;
  sv_ContractID : string;
  sv_DarcID : bytes
}.

Definition errKeyNotSet : error := errors_New "key not set".

(** Modelled from the spec: the interface [ReadOnlyStateTrie] is declared in
    package byzcoin, which is not among the sources; [GetValues] returns
    (value, version, contractID, darcID) of an instance, or fails with
    NotFound, all other results being zero then. *)
Definition GetValues (rst : gmap bytes StateValue) (key : bytes)
  : bytes * Z * string * bytes * option error :=
  match rst !! key with
  | Some v => (sv_Value v, sv_Version v, sv_ContractID v, sv_DarcID v, None)
  | None => ([], 0, ""%string, [], Some errKeyNotSet)
  end.

(** What calling a contract method comes to: it returns its three results,
    or it dereferences a nil pointer. *)
Inductive outcome :=
| Returns (sc : list StateChange) (cout : list Coin) (err : option error)
| Panics.

End Byzcoin.

(** ** package onet, as contracts.go uses it *)

Module Onet.

(** A member of a roster is known by its ID; a roster lists its members in
    order. *)
Record ServerIdentity := mkServerIdentity { ID : bytes; Address : string }.

Record Roster := mkRoster { RosterID : bytes; List : list ServerIdentity }.

Fixpoint search_from (i : Z) (l : list ServerIdentity) (eID : bytes)
  : Z * option ServerIdentity :=
  match l with
  | [] => (-1, None)
  | e :: rest => if decide (ID e = eID) then (i, Some e) else search_from (i + 1) rest eID
  end.

(** [ro.Search(eID)]: index and identity of the first member with that ID;
    contracts.go reads index -1 as "not a member". *)
Definition Search (ro : Roster) (eID : bytes) : Z * option ServerIdentity :=
  search_from 0 (List ro) eID.

End Onet.

(** ** calypso/contracts.go *)

Module Calypso.
Import Byzcoin.

Definition ContractWriteID : string := "calypsoWrite".
Definition ContractReadID : string := "calypsoRead".
Definition ContractLongTermSecretID : string := "longTermSecret".

(** Modelled from the spec: the struct [Read] is declared in another file of
    package calypso; a read grant names the Write instance it refers to. *)
Record Read := mkRead { Read_Write : bytes; Xc : bytes }.

(** Modelled from the spec: the struct [LtsInstanceInfo] is declared in
    another file of package calypso; it holds the roster of the secret. *)
Record LtsInstanceInfo := mkLtsInstanceInfo { Roster : Onet.Roster }.

Definition len {A} (l : list A) : Z := Z.of_nat (length l).

Definition intersectRosters (r1 r2 : Onet.Roster) : Z :=
  fold_left
    (fun res x => if (fst (Onet.Search r1 (Onet.ID x)) =? -1) then res else res + 1)
    (Onet.List r2) 0.

Definition contractReadFromBytes (_in : bytes) : option unit * option error :=
  (None, Some (errors_New "calypso read instances are never instantiated")).

Section Contracts.

(** The write request, its decoder and its proof check live outside
    contracts.go, as do the protobuf decoders and the derivation of
    instance identifiers. *)
Variable Write : Type.
Variable decodeWrite : bytes -> error + Write.
Variable decodeRead : bytes -> error + Read.
Variable decodeLtsInstanceInfo : bytes -> error + LtsInstanceInfo.
Variable CheckProof : Write -> bytes -> option error.
Variable DeriveID : Instruction -> string -> bytes.

Definition contractWriteFromBytes (_in : bytes) : option Write * option error :=
  match decodeWrite _in with
  | inl e => (None, Some (errors_New ("couldn't unmarshal write: " +:+ e)))
  | inr w => (Some w, None)
  end.

Definition contractWr_Spawn (rst : gmap bytes StateValue) (inst : Instruction)
    (coins : list Coin) : outcome :=
  let cout := coins in
  let '(_, _, _, darcID, err) := GetValues rst (InstanceID inst) in
  match err with
  | Some e => Returns [] cout (Some e)
  | None =>
  match Spawn inst with
  | None => Panics
  | Some sp =>
    if String.eqb (Spawn_ContractID sp) ContractWriteID then
      let w := Search (Spawn_Args sp) "write" in
      if len w =? 0 then
        Returns [] cout (Some (errors_New "need a write request in 'write' argument"))
      else
      match decodeWrite w with
      | inl e => Returns [] cout (Some (errors_New ("couldn't unmarshal write: " +:+ e)))
      | inr cWrite =>
      match CheckProof cWrite darcID with
      | Some e => Returns [] cout (Some (errors_New ("proof of write failed: " +:+ e)))
      | None =>
        let instID := DeriveID inst "" in
        Returns ([] ++ [NewStateChange Create instID ContractWriteID w darcID]) cout None
      end
      end
    else if String.eqb (Spawn_ContractID sp) ContractReadID then
      let r := Search (Spawn_Args sp) "read" in
      if len r =? 0 then
        Returns [] [] (Some (errors_New "need a read argument"))
      else
      match decodeRead r with
      | inl e => Returns [] [] (Some (errors_New ("passed read argument is invalid: " +:+ e)))
      | inr rd =>
      let '(_, _, wc, _, err') := GetValues rst (Read_Write rd) in
      match err' with
      | Some e =>
          Returns [] [] (Some (errors_New ("referenced write-id is not correct: " +:+ e)))
      | None =>
        if negb (String.eqb wc ContractWriteID) then
          Returns [] []
            (Some (errors_New ("referenced write-id is not a write instance, got " +:+ wc)))
        else
          Returns [NewStateChange Create (DeriveID inst "") ContractReadID r darcID] cout None
      end
      end
    else
      Returns [] cout (Some (errors_New "can only spawn writes and reads"))
  end
  end.

Definition contractLTSFromBytes (_in : bytes) : option LtsInstanceInfo * option error :=
  match decodeLtsInstanceInfo _in with
  | inl e => (None, Some (errors_New ("couldn't unmarshal LtsInfo: " +:+ e)))
  | inr i => (Some i, None)
  end.

Definition contractLTS_Spawn (rst : gmap bytes StateValue) (inst : Instruction)
    (coins : list Coin) : outcome :=
  let '(_, _, _, darcID, err) := GetValues rst (InstanceID inst) in
  match err with
  | Some e => Returns [] [] (Some e)
  | None =>
  match Spawn inst with
  | None => Panics
  | Some sp =>
    if negb (String.eqb (Spawn_ContractID sp) ContractLongTermSecretID) then
      Returns [] [] (Some (errors_New "can only spawn long-term-secret instances"))
    else
    let infoBuf := Search (Spawn_Args sp) "lts_instance_info" in
    if len infoBuf =? 0 then
      Returns [] [] (Some (errors_New "need a lts_instance_info argument"))
    else
    match decodeLtsInstanceInfo infoBuf with
    | inl e =>
        Returns [] []
          (Some (errors_New ("passed lts_instance_info argument is invalid: " +:+ e)))
    | inr _ =>
        Returns
          [NewStateChange Create (DeriveID inst "") ContractLongTermSecretID infoBuf darcID]
          coins None
    end
  end
  end.

Definition contractLTS_Invoke (rst : gmap bytes StateValue) (inst : Instruction)
    (coins : list Coin) : outcome :=
  let '(curBuf, _, _, darcID, err) := GetValues rst (InstanceID inst) in
  match err with
  | Some e => Returns [] [] (Some e)
  | None =>
  match Invoke inst with
  | None => Panics
  | Some inv =>
    if negb (String.eqb (Command inv) "reshare") then
      Returns [] [] (Some (errors_New "can only reshare long-term secrets"))
    else
    let infoBuf := Search (Invoke_Args inv) "lts_instance_info" in
    if len infoBuf =? 0 then
      Returns [] [] (Some (errors_New "need a lts_instance_info argument"))
    else
    match decodeLtsInstanceInfo infoBuf with
    | inl e =>
        Returns [] []
          (Some (errors_New ("passed lts_instance_info argument is invalid: " +:+ e)))
    | inr newInfo =>
    match decodeLtsInstanceInfo curBuf with
    | inl e => Returns [] [] (Some (errors_New ("current info is invalid: " +:+ e)))
    | inr curInfo =>
      let n := len (Onet.List (Roster curInfo)) in
      let overlap := intersectRosters (Roster curInfo) (Roster newInfo) in
      let thr := n - (n - 1) `quot` 3 in
      if overlap <? thr then
        Returns [] []
          (Some (errors_New "new roster does not overlap enough with current roster"))
      else
        Returns
          [NewStateChange Update (InstanceID inst) ContractLongTermSecretID infoBuf darcID]
          coins None
    end
    end
  end
  end.

End Contracts.

End Calypso.

(** ** ChainConfigInstance.java *)

Module ChainConfig.

(** The checked exceptions the class declares. *)
Inductive exn :=
| CothorityException (msg : string)
| CothorityNotFoundException (msg : string)
| CothorityCommunicationException (msg : string)
| CothorityCryptoException (msg : string).

Definition ContractId : string := "config".

(** [new InstanceId(new byte[32])] *)
Definition zeroInstanceId : bytes := repeat x00%byte 32.

(** Modelled from the spec: the class [Instance] is not among the sources;
    an instance has an identifier, a contract tag and a payload. *)
Record Instance := mkInstance { getId : bytes; getContractId : string; getData : bytes }.

(** Modelled from the spec: the classes [Invoke] and [Instruction] are not
    among the sources; they are kept as the values their constructors are
    given. *)
Record Invoke := mkInvoke { inv_command : string; inv_argument : string; inv_value : bytes }.

Record Instruction := mkInstruction {
  ins_id : bytes;
  ins_signerCounters : list Z;
  ins_invoke : Invoke
}.

Section Client.

(** The ledger service behind the [ByzCoinRPC] handle, the configuration
    payload, the signers and the proofs are other classes; the handle is
    shared, so the state of the service is threaded through the calls
    rather than stored in the object. *)
Variable ByzCoinRPC : Type.
Variable ChainConfigData : Type.
Variable Signer : Type.
Variable Proof : Type.
Variable ClientTransaction : Type.

Variable ChainConfigData_new : Instance -> exn + ChainConfigData.
Variable toProto_toByteArray : ChainConfigData -> bytes.
Variable Instance_fromByzcoin : ByzCoinRPC -> bytes -> (exn + Instance) * ByzCoinRPC.
Variable Instance_fromProof : Proof -> exn + Instance.
Variable ClientTransaction_new : list Instruction -> ClientTransaction.
Variable signWith : ClientTransaction -> list Signer -> exn + ClientTransaction.
Variable sendTransaction : ByzCoinRPC -> ClientTransaction -> option exn * ByzCoinRPC.
Variable sendTransactionAndWait :
  ByzCoinRPC -> ClientTransaction -> Z -> option exn * ByzCoinRPC.

Record ChainConfigInstance := mkChainConfigInstance {
  instance : Instance;
  chainConfig : ChainConfigData
}.

(** The private constructor. *)
Definition ChainConfigInstance_new (instance : Instance) : exn + ChainConfigInstance :=
  if negb (String.eqb (getContractId instance) ContractId) then
    inl (CothorityNotFoundException "this is not a value instance")
  else
    match ChainConfigData_new instance with
    | inl e => inl e
    | inr c => inr (mkChainConfigInstance instance c)
    end.

Definition update (this : ChainConfigInstance) (bc : ByzCoinRPC)
  : option exn * ChainConfigInstance * ByzCoinRPC :=
  match Instance_fromByzcoin bc (getId (instance this)) with
  | (inl e, bc') => (Some e, this, bc')
  | (inr i, bc') =>
      match ChainConfigData_new i with
      | inl e => (Some e, mkChainConfigInstance i (chainConfig this), bc')
      | inr c => (None, mkChainConfigInstance i c, bc')
      end
  end.

Definition evolveChainConfigInstruction (this : ChainConfigInstance)
    (newConfig : ChainConfigData) (ownerCtrs : list Z) : Instruction :=
  let inv := mkInvoke "update_config" ContractId (toProto_toByteArray newConfig) in
  mkInstruction (getId (instance this)) ownerCtrs inv.

Definition evolveChainConfig (this : ChainConfigInstance) (bc : ByzCoinRPC)
    (newConfig : ChainConfigData) (owners : list Signer) (ownerCtrs : list Z)
  : option exn * ChainConfigInstance * ByzCoinRPC :=
  let inst := evolveChainConfigInstruction this newConfig ownerCtrs in
  let ct := ClientTransaction_new [inst] in
  match signWith ct owners with
  | inl e => (Some e, this, bc)
  | inr ct =>
      let (r, bc') := sendTransaction bc ct in
      (r, this, bc')
  end.

Definition evolveConfigAndWait (this : ChainConfigInstance) (bc : ByzCoinRPC)
    (newConfig : ChainConfigData) (owners : list Signer) (ownerCtrs : list Z) (wait : Z)
  : option exn * ChainConfigInstance * ByzCoinRPC :=
  let inst := evolveChainConfigInstruction this newConfig ownerCtrs in
  let ct := ClientTransaction_new [inst] in
  match signWith ct owners with
  | inl e => (Some e, this, bc)
  | inr ct =>
      match sendTransactionAndWait bc ct wait with
      | (Some e, bc') => (Some e, this, bc')
      | (None, bc') => (None, mkChainConfigInstance (instance this) newConfig, bc')
      end
  end.

Definition getId_ (this : ChainConfigInstance) : bytes := getId (instance this).

Definition getInstance (this : ChainConfigInstance) : Instance := instance this.

(** [fromByzcoin(bc)] *)
Definition fromByzcoin (bc : ByzCoinRPC) : (exn + ChainConfigInstance) * ByzCoinRPC :=
  match Instance_fromByzcoin bc zeroInstanceId with
  | (inl e, bc') => (inl e, bc')
  | (inr i, bc') => (ChainConfigInstance_new i, bc')
  end.

(** [fromByzcoin(bc, p)] *)
Definition fromByzcoin_proof (bc : ByzCoinRPC) (p : Proof)
  : (exn + ChainConfigInstance) * ByzCoinRPC :=
  match Instance_fromProof p with
  | inl e => (inl e, bc)
  | inr i => (ChainConfigInstance_new i, bc)
  end.

End Client.

End ChainConfig.

(** ** The conditions of the specification, read off the messages of the code *)

Module Conditions.

Definition NotFound (e : string) : bool := String.eqb e "key not set".

Definition MissingArgument (e : string) : bool :=
  String.eqb e "need a write request in 'write' argument"
  || String.eqb e "need a read argument"
  || String.eqb e "need a lts_instance_info argument".

Definition DecodeError (e : string) : bool :=
  String.prefix "couldn't unmarshal write: " e
  || String.prefix "passed read argument is invalid: " e
  || String.prefix "passed lts_instance_info argument is invalid: " e
  || String.prefix "current info is invalid: " e.

Definition InvalidProof (e : string) : bool :=
  String.prefix "proof of write failed: " e.

Definition InvalidReference (e : string) : bool :=
  String.prefix "referenced write-id is not correct: " e
  || String.prefix "referenced write-id is not a write instance, got " e.

Definition InsufficientOverlap (e : string) : bool :=
  String.eqb e "new roster does not overlap enough with current roster".

Definition UnsupportedCommand (e : string) : bool :=
  String.eqb e "can only reshare long-term secrets".

Definition UnsupportedOperation (e : string) : bool :=
  String.eqb e "calypso read instances are never instantiated".

(** The identities of a roster, as a set. *)
Definition identities (ro : Onet.Roster) : gset bytes :=
  list_to_set (Onet.ID <$> Onet.List ro).

(** "The count of identities present in both current and new roster". *)
Definition common_identities (cur new : Onet.Roster) : Z :=
  Z.of_nat (size (identities cur ∩ identities new)).

(** "threshold = n − floor((n−1)/3)", with the floor the sentence names. *)
Definition floor_threshold (n : Z) : Z := n - (n - 1) `div` 3.

(** The reshare rule as the specification words it: the invoke fails with
    InsufficientOverlap exactly when the overlap is below that threshold. *)
Definition reshare_rule (o : Byzcoin.outcome) (cur new : Onet.Roster) : Prop :=
  (exists sc cout e,
      o = Byzcoin.Returns sc cout (Some e) /\ InsufficientOverlap e = true)
  <-> common_identities cur new
      < floor_threshold (Calypso.len (Onet.List cur)).

End Conditions.

(** ** A small wire format, to run the contracts on concrete inputs

    A write request is the letter W followed by the policy it was made for;
    a read grant is the letter R followed by the identifier of the write it
    refers to; the roster information is the letter L followed by one byte per
    member. *)

Module Wire.
Import Byzcoin.

Definition decodeWrite (w : bytes) : error + bytes :=
  match w with
  | "W"%byte :: rest => inr rest
  | _ => inl "not a write"%string
  end.

Definition CheckProof (w : bytes) (darcID : bytes) : option error :=
  if decide (w = darcID) then None else Some "policy mismatch"%string.

Definition decodeRead (r : bytes) : error + Calypso.Read :=
  match r with
  | "R"%byte :: rest => inr (Calypso.mkRead rest [])
  | _ => inl "not a read"%string
  end.

Definition member (x : Byte.byte) : Onet.ServerIdentity :=
  Onet.mkServerIdentity [x] "".

Definition decodeLtsInstanceInfo (l : bytes) : error + Calypso.LtsInstanceInfo :=
  match l with
  | "L"%byte :: rest => inr (Calypso.mkLtsInstanceInfo (Onet.mkRoster [] (member <$> rest)))
  | _ => inl "not a roster"%string
  end.

Definition DeriveID (inst : Instruction) (what : string) : bytes :=
  "#"%byte :: InstanceID inst ++ bytes_of what.

Definition Spawn := Calypso.contractWr_Spawn bytes decodeWrite decodeRead CheckProof DeriveID.
Definition LTS_Spawn := Calypso.contractLTS_Spawn decodeLtsInstanceInfo DeriveID.
Definition LTS_Invoke := Calypso.contractLTS_Invoke decodeLtsInstanceInfo.

(** A state with a policy instance [d], a write instance [w] made under
    another policy, and a coin instance [c]. *)
Definition state0 : gmap bytes StateValue :=
  <[bytes_of "d" := mkStateValue (bytes_of "rules") 0 "darc" (bytes_of "darc-1")]>
  (<[bytes_of "w" := mkStateValue (bytes_of "Wdarc-2") 0 "calypsoWrite" (bytes_of "darc-2")]>
  (<[bytes_of "c" := mkStateValue (bytes_of "10") 0 "coin" (bytes_of "darc-1")]> ∅)).

Definition spawn (contract arg : string) (payload : bytes) : Instruction :=
  mkInstruction (bytes_of "d") (Some (mkSpawn contract [mkArgument arg payload])) None [1].

(** A state with one long-term-secret instance [l] whose roster is that of
    [members]. *)
Definition lts_state (members : string) : gmap bytes StateValue :=
  <[bytes_of "l" :=
      mkStateValue (bytes_of ("L" +:+ members)) 0 "longTermSecret" (bytes_of "darc-1")]> ∅.

Definition reshare (members : string) : Instruction :=
  mkInstruction (bytes_of "l") None
    (Some (mkInvoke "reshare" [mkArgument "lts_instance_info" (bytes_of ("L" +:+ members))]))
    [1].

Definition roster_of (members : string) : Onet.Roster :=
  Onet.mkRoster [] (member <$> bytes_of members).

(** Transaction functions for the store: one that writes and succeeds, one
    that writes and then fails with an error of its own, and one that only
    counts its calls. *)
Definition put_ok : Trie.txfn nat := fun bk st =>
  let (e, bk') := Trie.diskBucket_Put bk (bytes_of "k") (bytes_of "v") in
  ((e, bk'), Go.mkRuntime (Go.next st) (S (Go.env st))).

Definition put_fail : Trie.txfn nat := fun bk =>
  let (_, bk') := Trie.diskBucket_Put bk (bytes_of "k") (bytes_of "v") in
  e ← Go.errors_New "boom"; mret (Some e, bk').

Definition count_calls : Trie.txfn nat := fun bk st =>
  ((None, bk), Go.mkRuntime (Go.next st) (S (Go.env st))).

Definition store0 : Trie.diskDB :=
  Trie.NewDiskDB (Bolt.mkDB (<[bytes_of "trie" := ∅]> ∅)) (bytes_of "trie").

Definition store_nobucket : Trie.diskDB :=
  Trie.NewDiskDB (Bolt.mkDB (<[bytes_of "trie" := ∅]> ∅)) (bytes_of "other").

(** A ledger service for the chain-configuration client: its state is the
    log of what was asked of it; transactions are accepted, and waiting
    fails when asked to wait a negative number of rounds. *)
Inductive request :=
| Lookup (id : bytes)
| Send (ct : list ChainConfig.Instruction) (wait : option Z).

Definition configOf (i : ChainConfig.Instance) : ChainConfig.exn + bytes :=
  inr (ChainConfig.getData i).

Definition lookup_in (ledger : gmap bytes ChainConfig.Instance)
    (log : list request) (id : bytes)
  : (ChainConfig.exn + ChainConfig.Instance) * list request :=
  (match ledger !! id with
   | Some i => inr i
   | None => inl (ChainConfig.CothorityNotFoundException "no such instance")
   end, log ++ [Lookup id]).

Definition fromProof (p : option ChainConfig.Instance)
  : ChainConfig.exn + ChainConfig.Instance :=
  match p with
  | Some i => inr i
  | None => inl (ChainConfig.CothorityNotFoundException "proof does not hold")
  end.

Definition signWith (ct : list ChainConfig.Instruction) (owners : list string)
  : ChainConfig.exn + list ChainConfig.Instruction :=
  match owners with
  | [] => inl (ChainConfig.CothorityCryptoException "no signer")
  | _ => inr ct
  end.

Definition sendTransaction (log : list request) (ct : list ChainConfig.Instruction)
  : option ChainConfig.exn * list request :=
  (None, log ++ [Send ct None]).

Definition sendTransactionAndWait (log : list request)
    (ct : list ChainConfig.Instruction) (wait : Z)
  : option ChainConfig.exn * list request :=
  (if wait <? 0 then Some (ChainConfig.CothorityCommunicationException "timeout") else None,
   log ++ [Send ct (Some wait)]).

Definition ledger0 : gmap bytes ChainConfig.Instance :=
  <[ChainConfig.zeroInstanceId := ChainConfig.mkInstance ChainConfig.zeroInstanceId "config" (bytes_of "v1")]>
  (<[bytes_of "x" := ChainConfig.mkInstance (bytes_of "x") "value" (bytes_of "42")]> ∅).

Definition ledger_bad : gmap bytes ChainConfig.Instance :=
  <[ChainConfig.zeroInstanceId := ChainConfig.mkInstance ChainConfig.zeroInstanceId "value" (bytes_of "42")]> ∅.

Definition cached0 : ChainConfig.ChainConfigInstance bytes :=
  ChainConfig.mkChainConfigInstance bytes
    (ChainConfig.mkInstance ChainConfig.zeroInstanceId "config" (bytes_of "v1")) (bytes_of "v1").

Definition evolve_tx : list ChainConfig.Instruction :=
  [ChainConfig.mkInstruction ChainConfig.zeroInstanceId [7] (ChainConfig.mkInvoke "update_config" "config" (bytes_of "v2"))].

End Wire.

(** ** How the store is used: transaction functions over one key *)

Module TrieUse.
Import Go Trie.

(** [func(b bucket) error { return b.Put(k, v) }] *)
Definition put {W} (k v : bytes) : txfn W := fun bk st => (diskBucket_Put bk k v, st).

(** [func(b bucket) error { return b.Delete(k) }] *)
Definition del {W} (k : bytes) : txfn W := fun bk st => (diskBucket_Delete bk k, st).

(** [func(b bucket) error { val = b.Get(k); return nil }], [val] being the
    variable the closure has captured. *)
Definition get_into (k : bytes) : txfn (option bytes) := fun bk st =>
  ((None, bk), mkRuntime (next st) (diskBucket_Get bk k)).

(** The entries bolt takes: a key that is not empty, key and value within
    the size limits. *)
Definition valid_entry (k v : bytes) : Prop :=
  0 < Z.of_nat (length k) <= Bolt.MaxKeySize /\ Z.of_nat (length v) <= Bolt.MaxValueSize.

(** A transaction function that allocates nothing and touches nothing it has
    captured: it is a function [g] of the bucket alone. *)
Definition pure_txfn {W} (g : diskBucket -> option error * diskBucket) : txfn W :=
  fun bk st => (g bk, st).

End TrieUse.

(** ** blsftcosi: checking a collective signature (check.go) *)

Module Cosi.

Record SignatureResponse := mkSignatureResponse { Hash : bytes; Signature : bytes }.

(** What running [checkRoster] comes to: it returns an error or nil, or it
    indexes [descs] out of range. *)
Inductive result :=
| Done (err : option string)
| IndexOutOfRange.

Section Check.

(** The suite's hash, the verification of a signature against the public
    keys of a roster, and the signing request over the network are outside
    check.go. *)
Variable Publics : Type.
Variable ServicePublics : Onet.Roster -> Publics.
Variable suiteHash : bytes -> bytes.
Variable Verify : bytes -> bytes -> Publics -> option string.
Variable signStatement : bytes -> Onet.Roster -> string + SignatureResponse.

Definition verifySignatureHash (b : bytes) (sig : SignatureResponse) (ro : Onet.Roster)
  : option string :=
  let publics := ServicePublics ro in
  let hash := suiteHash b in
  if negb (bool_decide (hash = Hash sig)) then
    Some ("You are trying to verify a signature " +:+
          "belonging to another file. (The hash provided by the signature " +:+
          "doesn't match with the hash of the file.)")
  else
    match Verify (Signature sig) b publics with
    | Some e => Some ("Invalid sig:" +:+ e)
    | None => None
    end.

(** [checkRoster]: the loop only builds the line that is logged, reading
    [descs[i]] for every member; then the roster signs the fixed message and
    the signature is checked. *)
Definition checkRoster (ro : Onet.Roster) (descs : list string) (detail : bool) : result :=
  if (length descs <? length (Onet.List ro))%nat then IndexOutOfRange
  else
    let msg := bytes_of "verification" in
    match signStatement msg ro with
    | inl e => Done (Some e)
    | inr sig =>
        match verifySignatureHash msg sig ro with
        | Some e => Done (Some ("Invalid signature: " +:+ e))
        | None => Done None
        end
    end.

End Check.

End Cosi.

(** ** The chain-configuration client: when the object is coherent *)

Module ChainConfigUse.
Import ChainConfig.

(** The object holds an instance of the chain-configuration contract and the
    configuration read from that instance. *)
Definition coherent (ChainConfigData : Type)
    (ChainConfigData_new : Instance -> exn + ChainConfigData)
    (this : ChainConfigInstance ChainConfigData) : Prop :=
  getContractId (instance _ this) = ContractId /\
  ChainConfigData_new (instance _ this) = inr (chainConfig _ this).

End ChainConfigUse.

(** ** More concrete inputs *)

Module Sample.
Import Go Trie.

(** A store whose bucket already holds one entry. *)
Definition store1 : diskDB :=
  NewDiskDB
    (Bolt.mkDB (<[bytes_of "trie" := <[bytes_of "a" := bytes_of "1"]> ∅]>
                (<[bytes_of "aux" := ∅]> ∅)))
    (bytes_of "trie").

Definition bucket1 : gmap bytes bytes := <[bytes_of "a" := bytes_of "1"]> ∅.

(** A function of the bucket alone that fails with one of bolt's own errors:
    it puts under the empty key. *)
Definition put_nokey (bk : diskBucket) : option error * diskBucket :=
  diskBucket_Put bk [] (bytes_of "v").

(** A toy suite for check.go: the hash of a message is its length in one
    byte, and a signature verifies when it is the message reversed. *)
Definition toyHash (b : bytes) : bytes :=
  match Byte.of_N (N.of_nat (length b)) with Some x => [x] | None => [] end.

Definition toyVerify (sig msg : bytes) (_ : unit) : option string :=
  if bool_decide (sig = reverse msg) then None else Some "bad signature"%string.

Definition toySign (msg : bytes) (_ : Onet.Roster) : string + Cosi.SignatureResponse :=
  inr (Cosi.mkSignatureResponse (toyHash msg) (reverse msg)).

Definition toySignOther (msg : bytes) (_ : Onet.Roster) : string + Cosi.SignatureResponse :=
  inr (Cosi.mkSignatureResponse (toyHash (bytes_of "other")) (reverse msg)).

End Sample.

(** * Properties *)

(** ** The transactional store *)

Module TrieProps.
Import Go Trie.

Lemma diskDB_eta (r : diskDB) : mkDiskDB (db r) (bucket r) = r.
Proof. by destruct r. Qed.

(** What a dry run comes to when the bucket exists: [f] runs once, on the
    bucket, after the sentinel has been allocated. *)
Lemma UpdateDryRun_run {W} (r : diskDB) (f : txfn W) (st : runtime W) bk :
  Bolt.db_buckets (db r) !! bucket r = Some bk ->
  UpdateDryRun r f st =
    let '((err, _), st') :=
      f (mkDiskBucket (Bolt.mkBucket true bk)) (mkRuntime (S (next st)) (env st)) in
    ((match err with
      | Some e => if Nat.eqb (err_addr e) (next st) then None else Some e
      | None => None
      end, r), st').
Proof.
  intros Hb. run. rewrite Hb. cbn -[Nat.eqb].
  destruct (f _ _) as [[[e|] bk'] st']; cbn -[Nat.eqb].
  - destruct (Nat.eqb (err_addr e) (next st)); simpl; by rewrite diskDB_eta.
  - rewrite Nat.eqb_refl. simpl. by rewrite diskDB_eta.
Qed.

Lemma succ_neqb (n : nat) : Nat.eqb (S n) n = false.
Proof. apply Nat.eqb_neq. lia. Qed.

(** The three entry points when the bucket does not exist. *)
Lemma Update_nobucket {W} (r : diskDB) (f : txfn W) (st : runtime W) :
  Bolt.db_buckets (db r) !! bucket r = None ->
  Update r f st =
    ((Some (mkError (next st) "bucket does not exist"), r),
     mkRuntime (S (next st)) (env st)).
Proof. intros Hb. run. rewrite Hb. simpl. by rewrite diskDB_eta. Qed.

Lemma View_nobucket {W} (r : diskDB) (f : txfn W) (st : runtime W) :
  Bolt.db_buckets (db r) !! bucket r = None ->
  View r f st =
    ((Some (mkError (next st) "bucket does not exist"), r),
     mkRuntime (S (next st)) (env st)).
Proof. intros Hb. run. rewrite Hb. simpl. by rewrite diskDB_eta. Qed.

Lemma UpdateDryRun_nobucket {W} (r : diskDB) (f : txfn W) (st : runtime W) :
  Bolt.db_buckets (db r) !! bucket r = None ->
  UpdateDryRun r f st =
    ((Some (mkError (S (next st)) "bucket does not exist"), r),
     mkRuntime (S (S (next st))) (env st)).
Proof.
  intros Hb. run. rewrite Hb. cbn -[Nat.eqb].
  rewrite succ_neqb. simpl. by rewrite diskDB_eta.
Qed.

(** C1. Whatever the transaction function does, a dry run leaves the store
    as it was, and hands back the function's own error: nil when the function
    returned nil, its error otherwise, and never the sentinel allocated for
    the discard. *)
Theorem UpdateDryRun_discards_and_propagates {W} (r : diskDB) (f : txfn W)
    (st : runtime W) :
  alloc_respecting (next st) f ->
  let '((err, r'), st') := UpdateDryRun r f st in
  r' = r /\
  (forall e, err = Some e -> err_addr e <> next st) /\
  (forall bk, Bolt.db_buckets (db r) !! bucket r = Some bk ->
     let '((ferr, _), fst') :=
       f (mkDiskBucket (Bolt.mkBucket true bk)) (mkRuntime (S (next st)) (env st)) in
     err = ferr /\ st' = fst').
Proof.
  intros Hf.
  destruct (Bolt.db_buckets (db r) !! bucket r) as [bk|] eqn:Hb.
  - rewrite (UpdateDryRun_run r f st bk Hb).
    specialize (Hf (mkDiskBucket (Bolt.mkBucket true bk))
                   (mkRuntime (S (next st)) (env st))).
    destruct (f _ _) as [[ferr bk'] st'] eqn:Hrun. simpl in Hf.
    destruct Hf as [_ Hf]; [lia|].
    assert (Hne : forall e, ferr = Some e -> Nat.eqb (err_addr e) (next st) = false).
    { intros e He. apply Nat.eqb_neq. destruct (Hf e He); lia. }
    split; [done|]. split.
    + intros e. destruct ferr as [e'|]; simpl; [|done].
      rewrite (Hne e' eq_refl). intros [= <-]. apply Nat.eqb_neq. by apply Hne.
    + intros bk0 [= <-]. rewrite Hrun.
      destruct ferr as [e'|]; simpl; [|done].
      by rewrite (Hne e' eq_refl).
  - rewrite (UpdateDryRun_nobucket r f st Hb).
    split; [done|]. split; [|done].
    intros e [= <-]. simpl. lia.
Qed.

Lemma put_fail_respecting (n : nat) : alloc_respecting n Wire.put_fail.
Proof.
  intros bk st Hn. unfold Wire.put_fail.
  destruct (diskBucket_Put _ _ _) as [e bk']. run.
  split; [lia|]. intros e' [= <-]. simpl. lia.
Qed.

Lemma UpdateDryRun_witness :
  alloc_respecting 10 Wire.put_fail /\
  let '((err, r'), st') := UpdateDryRun Wire.store0 Wire.put_fail (mkRuntime 10 0%nat) in
  r' = Wire.store0 /\
  (forall e, err = Some e -> err_addr e <> 10%nat) /\
  (forall bk, Bolt.db_buckets (db Wire.store0) !! bucket Wire.store0 = Some bk ->
     let '((ferr, _), fst') :=
       Wire.put_fail (mkDiskBucket (Bolt.mkBucket true bk)) (mkRuntime 11 0%nat) in
     err = ferr /\ st' = fst').
Proof.
  split; [apply put_fail_respecting|].
  apply (UpdateDryRun_discards_and_propagates Wire.store0 Wire.put_fail
           (mkRuntime 10 0%nat)).
  apply put_fail_respecting.
Defined.

(** A dry run of a function that writes and succeeds: nil is returned, the
    function did run, and the store is as before; the same function under
    [Update] leaves its write behind. *)
Example UpdateDryRun_put_ok :
  UpdateDryRun Wire.store0 Wire.put_ok (mkRuntime 10 0%nat)
  = ((None, Wire.store0), mkRuntime 11 1%nat).
Proof.
  rewrite (UpdateDryRun_run _ _ _ ∅) by reflexivity. reflexivity.
Qed.

Example UpdateDryRun_put_fail :
  UpdateDryRun Wire.store0 Wire.put_fail (mkRuntime 10 0%nat)
  = ((Some (mkError 11 "boom"), Wire.store0), mkRuntime 12 0%nat).
Proof.
  rewrite (UpdateDryRun_run _ _ _ ∅) by reflexivity. reflexivity.
Qed.

Example Update_put_ok_commits :
  match Update Wire.store0 Wire.put_ok (mkRuntime 10 0%nat) with
  | ((err, r'), _) =>
      err = None /\
      Bolt.db_buckets (db r') !! bytes_of "trie"
      = Some (<[bytes_of "k" := bytes_of "v"]> ∅)
  end.
Proof. vm_compute. split; reflexivity. Qed.

(** C6. When the bucket of the store does not exist, each of [Update],
    [View] and [UpdateDryRun] fails with StoreUnavailable; the transaction
    function is not run: what it has captured is untouched and the outcome
    is the same for any other function; and the store is as before. *)
Theorem missing_bucket_fails {W} (r : diskDB) (f g : txfn W) (st : runtime W)
    (op : diskDB -> txfn W -> M W (option error * diskDB)) :
  Bolt.db_buckets (db r) !! bucket r = None ->
  In op [Update; View; UpdateDryRun] ->
  exists e st',
    op r f st = ((Some e, r), st') /\
    StoreUnavailable e /\
    env st' = env st /\
    op r g st = op r f st.
Proof.
  intros Hb [<-|[<-|[<-|[]]]].
  - rewrite !(Update_nobucket _ _ _ Hb). by do 2 eexists.
  - rewrite !(View_nobucket _ _ _ Hb). by do 2 eexists.
  - rewrite !(UpdateDryRun_nobucket _ _ _ Hb). by do 2 eexists.
Qed.

Lemma missing_bucket_witness :
  exists e st',
    UpdateDryRun Wire.store_nobucket Wire.count_calls (mkRuntime 10 0%nat)
    = ((Some e, Wire.store_nobucket), st') /\
    StoreUnavailable e /\
    env st' = 0%nat /\
    UpdateDryRun Wire.store_nobucket Wire.put_ok (mkRuntime 10 0%nat)
    = UpdateDryRun Wire.store_nobucket Wire.count_calls (mkRuntime 10 0%nat).
Proof.
  apply (missing_bucket_fails Wire.store_nobucket Wire.count_calls Wire.put_ok
           (mkRuntime 10 0%nat) UpdateDryRun).
  - reflexivity.
  - simpl. tauto.
Defined.

End TrieProps.

(** ** The Calypso contracts *)

Module CalypsoProps.
Import Byzcoin Calypso Conditions.

Lemma prefix_append (p s : string) : String.prefix p (p +:+ s) = true.
Proof.
  induction p as [|c p IH]; simpl; [by destruct s|].
  destruct (Ascii.ascii_dec c c); [done|congruence].
Qed.

Lemma len_zero {A} (l : list A) : (len l =? 0) = true <-> l = [].
Proof.
  unfold len. rewrite Z.eqb_eq. destruct l; simpl; [done|]. split; [lia|done].
Qed.

Lemma len_nonzero {A} (l : list A) : l <> [] -> (len l =? 0) = false.
Proof.
  intros Hl. destruct (len l =? 0) eqn:E; [|done]. by apply len_zero in E.
Qed.

Lemma GetValues_Some rst key v :
  rst !! key = Some v ->
  GetValues rst key = (sv_Value v, sv_Version v, sv_ContractID v, sv_DarcID v, None).
Proof. intros H. unfold GetValues. by rewrite H. Qed.

Lemma GetValues_None rst key :
  rst !! key = None -> GetValues rst key = ([], 0, ""%string, [], Some errKeyNotSet).
Proof. intros H. unfold GetValues. by rewrite H. Qed.

(** *** Membership search and the overlap of two rosters *)

Lemma search_from_found i l eID :
  0 <= i -> eID ∈ Onet.ID <$> l -> 0 <= fst (Onet.search_from i l eID).
Proof.
  revert i. induction l as [|e l IH]; intros i Hi Hin; simpl.
  - by apply elem_of_nil in Hin.
  - destruct (decide (Onet.ID e = eID)); simpl; [done|].
    apply IH; [lia|]. rewrite fmap_cons in Hin.
    apply elem_of_cons in Hin as [->|]; [done|done].
Qed.

Lemma search_from_absent i l eID :
  eID ∉ Onet.ID <$> l -> fst (Onet.search_from i l eID) = -1.
Proof.
  revert i. induction l as [|e l IH]; intros i Hin; simpl; [done|].
  rewrite fmap_cons in Hin. apply not_elem_of_cons in Hin as [Hne Hin].
  destruct (decide (Onet.ID e = eID)); [done|]. by apply IH.
Qed.

Lemma Search_absent_iff ro eID :
  (fst (Onet.Search ro eID) =? -1) = true <-> eID ∉ Onet.ID <$> Onet.List ro.
Proof.
  unfold Onet.Search. rewrite Z.eqb_eq. split.
  - intros H Hin. pose proof (search_from_found 0 _ _ (Z.le_refl 0) Hin). lia.
  - apply search_from_absent.
Qed.

(** The loop of [intersectRosters] counts the members of the second roster
    that the first one knows. *)
Lemma intersectRosters_count r1 r2 :
  intersectRosters r1 r2 =
    len (filter (fun x => Onet.ID x ∈ Onet.ID <$> Onet.List r1) (Onet.List r2)).
Proof.
  unfold intersectRosters, len.
  transitivity
    (0 + Z.of_nat (length (filter (fun x => Onet.ID x ∈ Onet.ID <$> Onet.List r1)
                             (Onet.List r2)))); [|lia].
  generalize 0 as acc. induction (Onet.List r2) as [|x l IH]; intros acc; simpl; [lia|].
  rewrite IH. destruct (fst (Onet.Search r1 (Onet.ID x)) =? -1) eqn:E.
  - apply Search_absent_iff in E. rewrite filter_cons_False; [lia|done].
  - rewrite filter_cons_True; [simpl; lia|].
    destruct (decide (Onet.ID x ∈ Onet.ID <$> Onet.List r1)) as [|Hn]; [done|].
    apply Search_absent_iff in Hn. congruence.
Qed.

Lemma common_identities_count cur new :
  NoDup (Onet.ID <$> Onet.List new) ->
  common_identities cur new =
    len (filter (fun x => Onet.ID x ∈ Onet.ID <$> Onet.List cur) (Onet.List new)).
Proof.
  intros Hnd. unfold common_identities, identities, len. f_equal.
  set (l1 := Onet.ID <$> Onet.List cur).
  assert (Heq : (list_to_set l1 ∩ list_to_set (Onet.ID <$> Onet.List new) : gset bytes)
                = list_to_set (filter (fun i => i ∈ l1) (Onet.ID <$> Onet.List new))).
  { apply set_eq. intros i. rewrite elem_of_intersection, !elem_of_list_to_set,
      list_elem_of_filter. tauto. }
  rewrite Heq, size_list_to_set by (by apply NoDup_filter).
  clear Heq Hnd. induction (Onet.List new) as [|x l IH]; [done|].
  rewrite fmap_cons.
  destruct (decide (Onet.ID x ∈ l1)).
  - rewrite !filter_cons_True by done. simpl. by rewrite IH.
  - rewrite !filter_cons_False by done. done.
Qed.

Lemma intersectRosters_common cur new :
  NoDup (Onet.ID <$> Onet.List new) ->
  intersectRosters cur new = common_identities cur new.
Proof. intros H. by rewrite intersectRosters_count, common_identities_count. Qed.

(** Go's division truncates; it is the floor from one member on. *)
Lemma quot_floor n : 1 <= n -> (n - 1) `quot` 3 = (n - 1) `div` 3.
Proof. intros H. apply Z.quot_div_nonneg; lia. Qed.

Section Contracts.

Variable Write : Type.
Variable decodeWrite : bytes -> error + Write.
Variable decodeRead : bytes -> error + Read.
Variable decodeLtsInstanceInfo : bytes -> error + LtsInstanceInfo.
Variable CheckProof : Write -> bytes -> option error.
Variable DeriveID : Instruction -> string -> bytes.

Local Abbreviation Wr_Spawn :=
  (contractWr_Spawn Write decodeWrite decodeRead CheckProof DeriveID).
Local Abbreviation LTS_Spawn :=
  (contractLTS_Spawn decodeLtsInstanceInfo DeriveID).
Local Abbreviation LTS_Invoke :=
  (contractLTS_Invoke decodeLtsInstanceInfo).

(** C4. Spawning a Write instance, on an instruction whose target instance
    exists: an absent payload fails with MissingArgument, a payload that
    does not decode with DecodeError, a failed proof check with
    InvalidProof; otherwise the spawn succeeds with exactly one Create
    state change, for the identifier derived from the instruction, under
    the Write contract's ID and the policy of the spawning instance. *)
Theorem write_spawn_cases (rst : gmap bytes StateValue) (inst : Instruction)
    (sp : Spawn_t) (coins : list Coin) (tv : StateValue) :
  rst !! InstanceID inst = Some tv ->
  Spawn inst = Some sp ->
  Spawn_ContractID sp = ContractWriteID ->
  let w := Search (Spawn_Args sp) "write" in
  let out := Wr_Spawn rst inst coins in
  (w = [] ->
     exists e, out = Returns [] coins (Some e) /\ MissingArgument e = true) /\
  (w <> [] -> forall d, decodeWrite w = inl d ->
     exists e, out = Returns [] coins (Some e) /\ DecodeError e = true) /\
  (w <> [] -> forall cw d, decodeWrite w = inr cw ->
     CheckProof cw (sv_DarcID tv) = Some d ->
     exists e, out = Returns [] coins (Some e) /\ InvalidProof e = true) /\
  (w <> [] -> forall cw, decodeWrite w = inr cw ->
     CheckProof cw (sv_DarcID tv) = None ->
     out = Returns
             [NewStateChange Create (DeriveID inst "") ContractWriteID w (sv_DarcID tv)]
             coins None).
Proof.
  intros Ht Hsp Hc w out. subst out. unfold contractWr_Spawn.
  rewrite (GetValues_Some _ _ _ Ht), Hsp, Hc. simpl. fold w.
  repeat split.
  - intros ->. simpl. eexists. split; [reflexivity|done].
  - intros Hw d Hd. rewrite (len_nonzero _ Hw), Hd.
    eexists. split; [reflexivity|]. unfold DecodeError, errors_New.
    by rewrite prefix_append.
  - intros Hw cw d Hd Hp. rewrite (len_nonzero _ Hw), Hd, Hp.
    eexists. split; [reflexivity|]. apply prefix_append.
  - intros Hw cw Hd Hp. by rewrite (len_nonzero _ Hw), Hd, Hp.
Qed.

(** C3. Spawning a Read instance, on an instruction whose target instance
    exists and whose read grant decodes: a reference to an identifier
    absent from the state fails with InvalidReference, so does a reference
    to an instance whose contract is not the Write contract; a reference
    to a Write instance yields exactly one Create state change, for the
    new Read instance. *)
Theorem read_spawn_reference (rst : gmap bytes StateValue) (inst : Instruction)
    (sp : Spawn_t) (coins : list Coin) (tv : StateValue) (rd : Read) :
  rst !! InstanceID inst = Some tv ->
  Spawn inst = Some sp ->
  Spawn_ContractID sp = ContractReadID ->
  let r := Search (Spawn_Args sp) "read" in
  r <> [] ->
  decodeRead r = inr rd ->
  let out := Wr_Spawn rst inst coins in
  (rst !! Read_Write rd = None ->
     exists e, out = Returns [] [] (Some e) /\ InvalidReference e = true) /\
  (forall wv, rst !! Read_Write rd = Some wv -> sv_ContractID wv <> ContractWriteID ->
     exists e, out = Returns [] [] (Some e) /\ InvalidReference e = true) /\
  (forall wv, rst !! Read_Write rd = Some wv -> sv_ContractID wv = ContractWriteID ->
     out = Returns
             [NewStateChange Create (DeriveID inst "") ContractReadID r (sv_DarcID tv)]
             coins None).
Proof.
  intros Ht Hsp Hc r Hr Hd out. subst out. unfold contractWr_Spawn.
  rewrite (GetValues_Some _ _ _ Ht), Hsp, Hc. simpl. fold r.
  rewrite (len_nonzero _ Hr), Hd.
  repeat split.
  - intros Hw. rewrite (GetValues_None _ _ Hw).
    eexists. split; [reflexivity|]. unfold InvalidReference, errors_New.
    by rewrite prefix_append.
  - intros wv Hw Hne. rewrite (GetValues_Some _ _ _ Hw).
    apply String.eqb_neq in Hne. rewrite Hne. simpl.
    eexists. split; [reflexivity|]. unfold InvalidReference, errors_New.
    rewrite prefix_append. apply orb_true_r.
  - intros wv Hw He. rewrite (GetValues_Some _ _ _ Hw), He. done.
Qed.

(** C10. A successful spawn of a Read instance emits its Create state
    change under the policy of the instance the instruction targets, not
    under the policy of the Write instance the grant refers to. *)
Theorem read_spawn_policy (rst : gmap bytes StateValue) (inst : Instruction)
    (sp : Spawn_t) (coins : list Coin) (sc : list StateChange) (cout : list Coin) :
  Spawn inst = Some sp ->
  Spawn_ContractID sp = ContractReadID ->
  Wr_Spawn rst inst coins = Returns sc cout None ->
  exists tv rd wv,
    rst !! InstanceID inst = Some tv /\
    decodeRead (Search (Spawn_Args sp) "read") = inr rd /\
    rst !! Read_Write rd = Some wv /\
    sc = [NewStateChange Create (DeriveID inst "") ContractReadID
            (Search (Spawn_Args sp) "read") (sv_DarcID tv)] /\
    (sv_DarcID wv <> sv_DarcID tv ->
       Forall (fun c => SC_DarcID c <> sv_DarcID wv) sc).
Proof.
  intros Hsp Hc. unfold contractWr_Spawn, GetValues.
  rewrite Hsp, Hc. simpl.
  destruct (rst !! InstanceID inst) as [tv|] eqn:Ht; [|done].
  destruct (len _ =? 0); [done|].
  destruct (decodeRead _) as [e|rd] eqn:Hd; [done|].
  destruct (rst !! Read_Write rd) as [wv|] eqn:Hw; [|done].
  destruct (negb _); [done|].
  intros [= <- <-]. exists tv, rd, wv. repeat split; try done.
  intros Hne. constructor; [simpl; congruence|constructor].
Qed.

(** C9. Whenever one of the contract operations returns an error, it
    returns no state change. *)
Theorem error_means_no_state_change (rst : gmap bytes StateValue)
    (inst : Instruction) (coins : list Coin) (op : gmap bytes StateValue ->
    Instruction -> list Coin -> outcome) (sc : list StateChange)
    (cout : list Coin) (e : error) :
  In op [Wr_Spawn; LTS_Spawn; LTS_Invoke] ->
  op rst inst coins = Returns sc cout (Some e) ->
  sc = [].
Proof.
  intros [<-|[<-|[<-|[]]]];
    unfold contractWr_Spawn, contractLTS_Spawn, contractLTS_Invoke, GetValues;
    repeat case_match; intros; simplify_eq; done.
Qed.

(** C2. Resharing, on an instruction whose target instance holds a roster
    and which carries a new roster without duplicate identities: with [n]
    the size of the current roster, the invoke fails with
    InsufficientOverlap exactly when the number of common identities is
    below [n - (n-1)/3], the division truncating toward zero as Go's does;
    from one member on that is [n − floor((n−1)/3)], and for an empty
    current roster it is 0, so that the reshare succeeds.  With seven
    members an overlap of 4 fails and an overlap of 5 succeeds, with one
    Update state change. *)
Theorem reshare_overlap_threshold (rst : gmap bytes StateValue)
    (inst : Instruction) (inv : Invoke_t) (coins : list Coin)
    (cv : StateValue) (cur new : LtsInstanceInfo) :
  rst !! InstanceID inst = Some cv ->
  Invoke inst = Some inv ->
  Command inv = "reshare"%string ->
  let infoBuf := Search (Invoke_Args inv) "lts_instance_info" in
  infoBuf <> [] ->
  decodeLtsInstanceInfo infoBuf = inr new ->
  decodeLtsInstanceInfo (sv_Value cv) = inr cur ->
  NoDup (Onet.ID <$> Onet.List (Roster new)) ->
  let n := len (Onet.List (Roster cur)) in
  let overlap := common_identities (Roster cur) (Roster new) in
  let out := LTS_Invoke rst inst coins in
  let failure :=
    Returns [] [] (Some "new roster does not overlap enough with current roster"%string) in
  let success :=
    Returns [NewStateChange Update (InstanceID inst) ContractLongTermSecretID
               infoBuf (sv_DarcID cv)] coins None in
  (overlap < n - (n - 1) `quot` 3 -> out = failure) /\
  (n - (n - 1) `quot` 3 <= overlap -> out = success) /\
  (1 <= n -> reshare_rule out (Roster cur) (Roster new)) /\
  (n = 0 -> out = success) /\
  (n = 7 -> (overlap = 4 -> out = failure) /\ (overlap = 5 -> out = success)).
Proof.
  intros Hc Hinv Hcmd infoBuf Hbuf Hnew Hcur Hnd n overlap out failure success.
  assert (Hout : out = if overlap <? n - (n - 1) `quot` 3 then failure else success).
  { subst out. unfold contractLTS_Invoke.
    rewrite (GetValues_Some _ _ _ Hc), Hinv, Hcmd. simpl. fold infoBuf.
    rewrite (len_nonzero _ Hbuf), Hnew, Hcur.
    by rewrite (intersectRosters_common _ _ Hnd). }
  assert (Hlt : overlap < n - (n - 1) `quot` 3 -> out = failure).
  { intros H. apply Z.ltb_lt in H. by rewrite Hout, H. }
  assert (Hge : n - (n - 1) `quot` 3 <= overlap -> out = success).
  { intros H. apply Z.ltb_ge in H. by rewrite Hout, H. }
  assert (Hpos : 0 <= overlap) by (subst overlap; unfold common_identities; lia).
  split; [done|]. split; [done|]. split; [|split].
  - intros Hn. unfold reshare_rule, floor_threshold. fold n overlap.
    rewrite <- quot_floor by done. split.
    + intros [sc [cout [e [He _]]]].
      destruct (Z.lt_ge_cases overlap (n - (n - 1) `quot` 3)) as [|Hle]; [done|].
      rewrite (Hge Hle) in He. done.
    + intros Hbelow. do 3 eexists. split; [by apply Hlt|done].
  - intros Hn. apply Hge. rewrite Hn. change ((0 - 1) `quot` 3) with 0. lia.
  - intros Hn. split; intros Ho.
    + apply Hlt. rewrite Hn, Ho. done.
    + apply Hge. rewrite Hn, Ho. done.
Qed.

End Contracts.

(** C5. Whatever the stored bytes, no Read contract is reconstructed from
    them: the operation yields no contract and fails with
    UnsupportedOperation. *)
Theorem read_never_instantiated (_in : bytes) :
  exists e, contractReadFromBytes _in = (None, Some e) /\ UnsupportedOperation e = true.
Proof. by eexists. Qed.

(** *** The contracts on concrete instructions *)

Lemma write_spawn_witness :
  Wire.Spawn Wire.state0 (Wire.spawn "calypsoWrite" "write" (bytes_of "Wdarc-1")) []
  = Returns
      [NewStateChange Create (bytes_of "#d") ContractWriteID (bytes_of "Wdarc-1")
         (bytes_of "darc-1")]
      [] None.
Proof.
  refine (proj2 (proj2 (proj2
    (write_spawn_cases bytes Wire.decodeWrite Wire.decodeRead Wire.CheckProof
       Wire.DeriveID Wire.state0
       (Wire.spawn "calypsoWrite" "write" (bytes_of "Wdarc-1"))
       (mkSpawn "calypsoWrite" [mkArgument "write" (bytes_of "Wdarc-1")]) []
       (mkStateValue (bytes_of "rules") 0 "darc" (bytes_of "darc-1")) _ _ _)))
    _ (bytes_of "darc-1") _ _); try reflexivity.
  discriminate.
Defined.

Example write_spawn_missing :
  Wire.Spawn Wire.state0 (Wire.spawn "calypsoWrite" "other" (bytes_of "Wdarc-1")) []
  = Returns [] [] (Some "need a write request in 'write' argument"%string).
Proof. reflexivity. Qed.

Example write_spawn_undecodable :
  Wire.Spawn Wire.state0 (Wire.spawn "calypsoWrite" "write" (bytes_of "junk")) []
  = Returns [] [] (Some "couldn't unmarshal write: not a write"%string).
Proof. reflexivity. Qed.

Example write_spawn_bad_proof :
  Wire.Spawn Wire.state0 (Wire.spawn "calypsoWrite" "write" (bytes_of "Wdarc-2")) []
  = Returns [] [] (Some "proof of write failed: policy mismatch"%string).
Proof. reflexivity. Qed.

(** When the instance the instruction targets does not exist, the spawn
    stops at the first lookup, whatever the payload. *)
Example spawn_on_missing_target :
  Wire.Spawn ∅ (Wire.spawn "calypsoWrite" "other" (bytes_of "Wdarc-1")) []
  = Returns [] [] (Some "key not set"%string).
Proof. reflexivity. Qed.

Lemma read_spawn_witness :
  Wire.Spawn Wire.state0 (Wire.spawn "calypsoRead" "read" (bytes_of "Rw")) []
  = Returns
      [NewStateChange Create (bytes_of "#d") ContractReadID (bytes_of "Rw")
         (bytes_of "darc-1")]
      [] None.
Proof.
  refine (proj2 (proj2
    (read_spawn_reference bytes Wire.decodeWrite Wire.decodeRead Wire.CheckProof
       Wire.DeriveID Wire.state0
       (Wire.spawn "calypsoRead" "read" (bytes_of "Rw"))
       (mkSpawn "calypsoRead" [mkArgument "read" (bytes_of "Rw")]) []
       (mkStateValue (bytes_of "rules") 0 "darc" (bytes_of "darc-1"))
       (mkRead (bytes_of "w") []) _ _ _ _ _))
    (mkStateValue (bytes_of "Wdarc-2") 0 "calypsoWrite" (bytes_of "darc-2")) _ _);
    try reflexivity.
  discriminate.
Defined.

Example read_spawn_absent_reference :
  Wire.Spawn Wire.state0 (Wire.spawn "calypsoRead" "read" (bytes_of "Rzz")) []
  = Returns [] [] (Some "referenced write-id is not correct: key not set"%string).
Proof. reflexivity. Qed.

Example read_spawn_reference_to_coin :
  Wire.Spawn Wire.state0 (Wire.spawn "calypsoRead" "read" (bytes_of "Rc")) []
  = Returns [] [] (Some "referenced write-id is not a write instance, got coin"%string).
Proof. reflexivity. Qed.

Lemma read_spawn_policy_witness :
  Forall (fun c => SC_DarcID c <> bytes_of "darc-2")
    [NewStateChange Create (bytes_of "#d") ContractReadID (bytes_of "Rw")
       (bytes_of "darc-1")].
Proof.
  destruct (read_spawn_policy bytes Wire.decodeWrite Wire.decodeRead Wire.CheckProof
              Wire.DeriveID Wire.state0
              (Wire.spawn "calypsoRead" "read" (bytes_of "Rw"))
              (mkSpawn "calypsoRead" [mkArgument "read" (bytes_of "Rw")]) []
              [NewStateChange Create (bytes_of "#d") ContractReadID (bytes_of "Rw")
                 (bytes_of "darc-1")] []
              eq_refl eq_refl eq_refl)
    as (tv & rd & wv & Ht & Hd & Hw & _ & Hpol).
  injection Ht as <-. injection Hd as <-. injection Hw as <-.
  apply Hpol. discriminate.
Defined.

Lemma error_means_no_state_change_witness :
  Wire.Spawn Wire.state0 (Wire.spawn "calypsoRead" "read" (bytes_of "Rzz")) []
  = Returns [] [] (Some "referenced write-id is not correct: key not set"%string)
  /\ @nil StateChange = [].
Proof.
  split; [reflexivity|].
  apply (error_means_no_state_change bytes Wire.decodeWrite Wire.decodeRead
           Wire.decodeLtsInstanceInfo Wire.CheckProof Wire.DeriveID Wire.state0
           (Wire.spawn "calypsoRead" "read" (bytes_of "Rzz")) [] Wire.Spawn [] []
           "referenced write-id is not correct: key not set"%string).
  - simpl. tauto.
  - reflexivity.
Defined.

Lemma NoDup_members (members : string) :
  bool_decide (NoDup (bytes_of members)) = true ->
  NoDup (Onet.ID <$> Onet.List (Wire.roster_of members)).
Proof.
  intros H. apply bool_decide_eq_true_1 in H. unfold Wire.roster_of. simpl.
  rewrite <- list_fmap_compose.
  apply (NoDup_fmap_2 _). exact H.
Qed.

(** Seven members, five of them kept: the reshare goes through. *)
Lemma reshare_witness :
  Wire.LTS_Invoke (Wire.lts_state "abcdefg") (Wire.reshare "abcdexy") []
  = Returns
      [NewStateChange Update (bytes_of "l") ContractLongTermSecretID
         (bytes_of "Labcdexy") (bytes_of "darc-1")]
      [] None.
Proof.
  refine (proj1 (proj2
    (reshare_overlap_threshold Wire.decodeLtsInstanceInfo
       (Wire.lts_state "abcdefg") (Wire.reshare "abcdexy")
       (mkInvoke "reshare" [mkArgument "lts_instance_info" (bytes_of "Labcdexy")]) []
       (mkStateValue (bytes_of "Labcdefg") 0 "longTermSecret" (bytes_of "darc-1"))
       (mkLtsInstanceInfo (Wire.roster_of "abcdefg"))
       (mkLtsInstanceInfo (Wire.roster_of "abcdexy")) _ _ _ _ _ _ _)) _);
    try reflexivity.
  - discriminate.
  - apply NoDup_members. reflexivity.
Defined.

(** Seven members, four of them kept: the reshare is refused. *)
Example reshare_seven_four :
  common_identities (Wire.roster_of "abcdefg") (Wire.roster_of "abcdxyz") = 4 /\
  Wire.LTS_Invoke (Wire.lts_state "abcdefg") (Wire.reshare "abcdxyz") []
  = Returns [] [] (Some "new roster does not overlap enough with current roster"%string).
Proof. split; reflexivity. Qed.

Example reshare_seven_five :
  common_identities (Wire.roster_of "abcdefg") (Wire.roster_of "abcdexy") = 5.
Proof. reflexivity. Qed.

(** A new roster that repeats a member: the loop counts every entry, so
    that one common identity passes for three. *)
Example reshare_repeated_member :
  common_identities (Wire.roster_of "abcd") (Wire.roster_of "aaa") = 1 /\
  intersectRosters (Wire.roster_of "abcd") (Wire.roster_of "aaa") = 3 /\
  Wire.LTS_Invoke (Wire.lts_state "abcd") (Wire.reshare "aaa") []
  = Returns
      [NewStateChange Update (bytes_of "l") ContractLongTermSecretID (bytes_of "Laaa")
         (bytes_of "darc-1")]
      [] None.
Proof. repeat split; reflexivity. Qed.

(** An empty current roster: no identity is common, which is below
    [0 − floor(−1/3) = 1], and yet the reshare goes through. *)
Lemma reshare_empty_roster :
  Wire.decodeLtsInstanceInfo (bytes_of "L") = inr (mkLtsInstanceInfo (Wire.roster_of "")) /\
  Wire.decodeLtsInstanceInfo (bytes_of "La") = inr (mkLtsInstanceInfo (Wire.roster_of "a")) /\
  Wire.LTS_Invoke (Wire.lts_state "") (Wire.reshare "a") []
  = Returns
      [NewStateChange Update (bytes_of "l") ContractLongTermSecretID (bytes_of "La")
         (bytes_of "darc-1")]
      [] None /\
  ~ reshare_rule (Wire.LTS_Invoke (Wire.lts_state "") (Wire.reshare "a") [])
      (Wire.roster_of "") (Wire.roster_of "a").
Proof.
  split; [reflexivity|]. split; [reflexivity|]. split; [reflexivity|].
  intros [_ Hrule].
  destruct Hrule as (sc & cout & e & He & _); [reflexivity|].
  discriminate He.
Qed.

End CalypsoProps.

(** ** The chain-configuration client *)

Module ChainConfigProps.
Import ChainConfig.

Section Client.

Variable ByzCoinRPC : Type.
Variable ChainConfigData : Type.
Variable Signer : Type.
Variable Proof : Type.
Variable ClientTransaction : Type.

Variable ChainConfigData_new : Instance -> exn + ChainConfigData.
Variable toProto_toByteArray : ChainConfigData -> bytes.
Variable Instance_fromByzcoin : ByzCoinRPC -> bytes -> (exn + Instance) * ByzCoinRPC.
Variable Instance_fromProof : Proof -> exn + Instance.
Variable ClientTransaction_new : list Instruction -> ClientTransaction.
Variable signWith : ClientTransaction -> list Signer -> exn + ClientTransaction.
Variable sendTransaction : ByzCoinRPC -> ClientTransaction -> option exn * ByzCoinRPC.
Variable sendTransactionAndWait :
  ByzCoinRPC -> ClientTransaction -> Z -> option exn * ByzCoinRPC.

Local Abbreviation t :=
  (ChainConfigInstance ChainConfigData).
Local Abbreviation send :=
  (evolveChainConfig ByzCoinRPC ChainConfigData Signer ClientTransaction toProto_toByteArray ClientTransaction_new signWith sendTransaction).
Local Abbreviation sendAndWait :=
  (evolveConfigAndWait ByzCoinRPC ChainConfigData Signer ClientTransaction toProto_toByteArray ClientTransaction_new signWith sendTransactionAndWait).
Local Abbreviation instruction :=
  (evolveChainConfigInstruction ChainConfigData toProto_toByteArray).
Local Abbreviation load :=
  (fromByzcoin ByzCoinRPC ChainConfigData ChainConfigData_new Instance_fromByzcoin).
Local Abbreviation loadProof :=
  (fromByzcoin_proof ByzCoinRPC ChainConfigData Proof ChainConfigData_new Instance_fromProof).

(** C7. Sending without waiting submits the signed transaction made of the
    one evolve instruction and leaves the object, its cached
    configuration included, as it was.  Sending and waiting submits the
    same transaction with the number of rounds asked for; the cached
    configuration becomes the new one when, and only when, the wait came
    back without an exception, and nothing else of the object changes. *)
Theorem evolve_cached_configuration (this : t) (bc : ByzCoinRPC)
    (newConfig : ChainConfigData) (owners : list Signer) (ownerCtrs : list Z)
    (wait : Z) :
  let tx := ClientTransaction_new [instruction this newConfig ownerCtrs] in
  (let '(r, this', bc') := send this bc newConfig owners ownerCtrs in
   this' = this /\
   match signWith tx owners with
   | inl e => r = Some e /\ bc' = bc
   | inr ct => (r, bc') = sendTransaction bc ct
   end) /\
  (let '(r, this', bc') := sendAndWait this bc newConfig owners ownerCtrs wait in
   instance _ this' = instance _ this /\
   match signWith tx owners with
   | inl e => r = Some e /\ bc' = bc /\ this' = this
   | inr ct =>
       (r, bc') = sendTransactionAndWait bc ct wait /\
       match r with
       | None => chainConfig _ this' = newConfig
       | Some _ => this' = this
       end
   end).
Proof.
  intros tx. subst tx.
  unfold evolveChainConfig, evolveConfigAndWait. split.
  - destruct (signWith _ owners) as [e|ct]; [done|].
    by destruct (sendTransaction bc ct).
  - destruct (signWith _ owners) as [e|ct]; [done|].
    by destruct (sendTransactionAndWait bc ct wait) as [[e|] bc'].
Qed.

(** C8. An instance whose contract tag is not that of the chain
    configuration is refused with NotFound, whether it was fetched by
    identifier or taken out of a proof; and loading by identifier asks the
    service for the all-zero identifier and nothing else. *)
Theorem wrong_tag_is_not_found (i : Instance) (bc bc' : ByzCoinRPC) (p : Proof) :
  getContractId i <> ContractId ->
  ChainConfigInstance_new ChainConfigData ChainConfigData_new i
  = inl (CothorityNotFoundException "this is not a value instance") /\
  (Instance_fromByzcoin bc zeroInstanceId = (inr i, bc') ->
     load bc = (inl (CothorityNotFoundException "this is not a value instance"), bc')) /\
  (Instance_fromProof p = inr i ->
     loadProof bc p
     = (inl (CothorityNotFoundException "this is not a value instance"), bc)) /\
  (forall other : ByzCoinRPC -> bytes -> (exn + Instance) * ByzCoinRPC,
     other bc zeroInstanceId = Instance_fromByzcoin bc zeroInstanceId ->
     fromByzcoin ByzCoinRPC ChainConfigData ChainConfigData_new other bc = load bc) /\
  zeroInstanceId = repeat x00%byte 32.
Proof.
  intros Htag. apply String.eqb_neq in Htag.
  assert (Hnew : ChainConfigInstance_new ChainConfigData ChainConfigData_new i
                 = inl (CothorityNotFoundException "this is not a value instance")).
  { unfold ChainConfigInstance_new. by rewrite Htag. }
  unfold fromByzcoin, fromByzcoin_proof.
  split; [done|]. split; [|split; [|split]].
  - intros ->. by rewrite Hnew.
  - intros ->. by rewrite Hnew.
  - intros other ->. done.
  - done.
Qed.

End Client.

(** *** The client against a service that logs what it is asked *)

Lemma wrong_tag_witness :
  fromByzcoin (list Wire.request) bytes Wire.configOf (Wire.lookup_in Wire.ledger_bad) []
  = (inl (CothorityNotFoundException "this is not a value instance"),
     [Wire.Lookup zeroInstanceId]).
Proof.
  refine (proj1 (proj2
    (wrong_tag_is_not_found (list Wire.request) bytes (option Instance)
       Wire.configOf (Wire.lookup_in Wire.ledger_bad) Wire.fromProof
       (mkInstance zeroInstanceId "value" (bytes_of "42"))
       [] [Wire.Lookup zeroInstanceId] None _)) _).
  - discriminate.
  - reflexivity.
Defined.

Example load_by_identifier :
  fromByzcoin (list Wire.request) bytes Wire.configOf (Wire.lookup_in Wire.ledger0) []
  = (inr (mkChainConfigInstance bytes
            (mkInstance zeroInstanceId "config" (bytes_of "v1")) (bytes_of "v1")),
     [Wire.Lookup zeroInstanceId]).
Proof. reflexivity. Qed.

Example evolve_without_waiting :
  evolveChainConfig (list Wire.request) bytes string (list Instruction)
    (fun c => c) (fun l => l) Wire.signWith Wire.sendTransaction
    Wire.cached0 [] (bytes_of "v2") ["alice"%string] [7]
  = (None, Wire.cached0, [Wire.Send Wire.evolve_tx None]).
Proof. reflexivity. Qed.

Example evolve_and_wait :
  evolveConfigAndWait (list Wire.request) bytes string (list Instruction)
    (fun c => c) (fun l => l) Wire.signWith Wire.sendTransactionAndWait
    Wire.cached0 [] (bytes_of "v2") ["alice"%string] [7] 10
  = (None,
     mkChainConfigInstance bytes
       (mkInstance zeroInstanceId "config" (bytes_of "v1")) (bytes_of "v2"),
     [Wire.Send Wire.evolve_tx (Some 10)]).
Proof. reflexivity. Qed.

Example evolve_and_wait_fails :
  evolveConfigAndWait (list Wire.request) bytes string (list Instruction)
    (fun c => c) (fun l => l) Wire.signWith Wire.sendTransactionAndWait
    Wire.cached0 [] (bytes_of "v2") ["alice"%string] [7] (-1)
  = (Some (CothorityCommunicationException "timeout"), Wire.cached0,
     [Wire.Send Wire.evolve_tx (Some (-1))]).
Proof. reflexivity. Qed.

End ChainConfigProps.

(** * Further properties *)

(** ** The store: commit, rollback and what later transactions see *)

Module TrieMore.
Import Go Trie TrieUse.

Lemma db_eta (r : diskDB) : mkDiskDB (db r) (bucket r) = r.
Proof. by destruct r. Qed.

(** [Update] when the bucket exists: the function runs once on a writable
    handle; what it returns decides between commit and rollback. *)
Lemma Update_run {W} (r : diskDB) (f : txfn W) (st : runtime W) bk :
  Bolt.db_buckets (db r) !! bucket r = Some bk ->
  Update r f st =
    let '((err, bk'), st') := f (mkDiskBucket (Bolt.mkBucket true bk)) st in
    ((err,
      match err with
      | Some _ => r
      | None =>
          mkDiskDB (Bolt.mkDB (<[bucket r := Bolt.data (b bk')]> (Bolt.db_buckets (db r))))
            (bucket r)
      end), st').
Proof.
  intros Hb. run. rewrite Hb. simpl.
  destruct (f _ _) as [[[e|] bk'] st']; simpl; [by rewrite db_eta|done].
Qed.

(** [View] when the bucket exists: the function runs once on a handle that
    is not writable, and the store is handed back as it was. *)
Lemma View_run {W} (r : diskDB) (f : txfn W) (st : runtime W) bk :
  Bolt.db_buckets (db r) !! bucket r = Some bk ->
  View r f st =
    let '((err, _), st') := f (mkDiskBucket (Bolt.mkBucket false bk)) st in
    ((err, r), st').
Proof.
  intros Hb. run. rewrite Hb. simpl.
  destruct (f _ _) as [[err bk'] st']; simpl. by rewrite db_eta.
Qed.

Lemma Put_valid (bk : gmap bytes bytes) (k v : bytes) :
  valid_entry k v ->
  diskBucket_Put (mkDiskBucket (Bolt.mkBucket true bk)) k v
  = (None, mkDiskBucket (Bolt.mkBucket true (<[k := v]> bk))).
Proof.
  intros [[Hk1 Hk2] Hv]. unfold diskBucket_Put, Bolt.Bucket_Put. simpl.
  replace (Z.of_nat (length k) =? 0) with false by (symmetry; apply Z.eqb_neq; lia).
  replace (Bolt.MaxKeySize <? Z.of_nat (length k)) with false
    by (symmetry; apply Z.ltb_ge; lia).
  replace (Bolt.MaxValueSize <? Z.of_nat (length v)) with false
    by (symmetry; apply Z.ltb_ge; lia).
  done.
Qed.

(** X1. [Update] is all or nothing: it hands back the error of the
    transaction function; when that is nil the bucket of the store holds
    what the function left in it and every other bucket is as before; when
    it is an error the store is exactly as before. *)
Theorem Update_all_or_nothing {W} (r : diskDB) (f : txfn W) (st : runtime W)
    (bk : gmap bytes bytes) :
  Bolt.db_buckets (db r) !! bucket r = Some bk ->
  let '((ferr, bk'), st') := f (mkDiskBucket (Bolt.mkBucket true bk)) st in
  let '((err, r'), st'') := Update r f st in
  err = ferr /\ st'' = st' /\ bucket r' = bucket r /\
  match ferr with
  | Some _ => r' = r
  | None =>
      Bolt.db_buckets (db r') !! bucket r = Some (Bolt.data (b bk')) /\
      forall other, other <> bucket r ->
        Bolt.db_buckets (db r') !! other = Bolt.db_buckets (db r) !! other
  end.
Proof.
  intros Hb. rewrite (Update_run r f st bk Hb).
  destruct (f _ _) as [[[e|] bk'] st']; simpl; [done|].
  repeat split; [apply lookup_insert_eq|].
  intros other Hne. by apply lookup_insert_ne.
Qed.

Lemma Update_all_or_nothing_witness :
  let '((ferr, bk'), st') :=
    Wire.put_fail (mkDiskBucket (Bolt.mkBucket true Sample.bucket1)) (mkRuntime 10 0%nat) in
  let '((err, r'), st'') := Update Sample.store1 Wire.put_fail (mkRuntime 10 0%nat) in
  err = ferr /\ st'' = st' /\ bucket r' = bucket Sample.store1 /\
  match ferr with
  | Some _ => r' = Sample.store1
  | None =>
      Bolt.db_buckets (db r') !! bucket Sample.store1 = Some (Bolt.data (b bk')) /\
      forall other, other <> bucket Sample.store1 ->
        Bolt.db_buckets (db r') !! other = Bolt.db_buckets (db Sample.store1) !! other
  end.
Proof.
  apply (Update_all_or_nothing Sample.store1 Wire.put_fail (mkRuntime 10 0%nat)
           Sample.bucket1).
  reflexivity.
Defined.

(** X2. Nothing is written through [View]: whatever the function does the
    store is handed back as it was, and a [Put] or a [Delete] made inside
    fails with bolt's "tx not writable". *)
Theorem View_rejects_writes {W} (r : diskDB) (st : runtime W) (bk : gmap bytes bytes)
    (k v : bytes) :
  Bolt.db_buckets (db r) !! bucket r = Some bk ->
  (forall f : txfn W, snd (fst (View r f st)) = r) /\
  View r (put k v) st = ((Some Bolt.ErrTxNotWritable, r), st) /\
  View r (del k) st = ((Some Bolt.ErrTxNotWritable, r), st).
Proof.
  intros Hb. split; [|split].
  - intros f. rewrite (View_run r f st bk Hb). by destruct (f _ _) as [[err bk'] st'].
  - by rewrite (View_run r _ st bk Hb).
  - by rewrite (View_run r _ st bk Hb).
Qed.

Lemma View_rejects_writes_witness :
  (forall f : txfn nat, snd (fst (View Sample.store1 f (mkRuntime 10 0%nat))) = Sample.store1) /\
  View Sample.store1 (put (bytes_of "a") (bytes_of "v")) (mkRuntime 10 0%nat)
  = ((Some Bolt.ErrTxNotWritable, Sample.store1), mkRuntime 10 0%nat) /\
  View Sample.store1 (del (bytes_of "a")) (mkRuntime 10 0%nat)
  = ((Some Bolt.ErrTxNotWritable, Sample.store1), mkRuntime 10 0%nat).
Proof.
  apply (View_rejects_writes Sample.store1 (mkRuntime 10 0%nat) Sample.bucket1
           (bytes_of "a") (bytes_of "v")).
  reflexivity.
Defined.

(** X3. What [Update] has put, a later [View] gets: after a committed
    [Put] of a valid entry, [Get] of that key yields the value put, and [Get]
    of any other key yields what it did before. *)
Theorem put_then_get (r : diskDB) (st : runtime unit) (st0 : runtime (option bytes))
    (bk : gmap bytes bytes) (k v : bytes) :
  Bolt.db_buckets (db r) !! bucket r = Some bk ->
  valid_entry k v ->
  exists r1,
    Update r (put k v) st = ((None, r1), st) /\
    forall k',
      View r1 (get_into k') st0
      = ((None, r1), mkRuntime (next st0) (if decide (k' = k) then Some v else bk !! k')).
Proof.
  intros Hb Hv. eexists. split.
  - rewrite (Update_run r _ st bk Hb). unfold put. rewrite (Put_valid bk k v Hv). done.
  - intros k'. rewrite (View_run _ _ _ (<[k := v]> bk)) by (simpl; apply lookup_insert_eq).
    unfold get_into, diskBucket_Get, Bolt.Bucket_Get. simpl.
    destruct (decide (k' = k)) as [->|Hne].
    + by rewrite lookup_insert_eq.
    + by rewrite lookup_insert_ne.
Qed.

Lemma valid_kv : valid_entry (bytes_of "k") (bytes_of "v").
Proof. unfold valid_entry. vm_compute. repeat split; discriminate. Qed.

Lemma put_then_get_witness :
  exists r1,
    Update Sample.store1 (put (bytes_of "k") (bytes_of "v")) (mkRuntime 10 tt)
    = ((None, r1), mkRuntime 10 tt) /\
    forall k',
      View r1 (get_into k') (mkRuntime 20 None)
      = ((None, r1),
         mkRuntime 20 (if decide (k' = bytes_of "k") then Some (bytes_of "v")
                       else Sample.bucket1 !! k')).
Proof.
  apply (put_then_get Sample.store1 (mkRuntime 10 tt) (mkRuntime 20 None) Sample.bucket1).
  - reflexivity.
  - apply valid_kv.
Defined.

(** X4. A committed [Delete] undoes a committed [Put]: after both, [Get] of
    the key yields nothing and every other key is as it was at the start. *)
Theorem put_then_delete (r : diskDB) (st : runtime unit) (st0 : runtime (option bytes))
    (bk : gmap bytes bytes) (k v : bytes) :
  Bolt.db_buckets (db r) !! bucket r = Some bk ->
  valid_entry k v ->
  exists r1 r2,
    Update r (put k v) st = ((None, r1), st) /\
    Update r1 (del k) st = ((None, r2), st) /\
    forall k',
      View r2 (get_into k') st0
      = ((None, r2), mkRuntime (next st0) (if decide (k' = k) then None else bk !! k')).
Proof.
  intros Hb Hv. do 2 eexists. split; [|split].
  - rewrite (Update_run r _ st bk Hb). unfold put. rewrite (Put_valid bk k v Hv). done.
  - rewrite (Update_run _ _ st (<[k := v]> bk)) by (simpl; apply lookup_insert_eq).
    unfold del, diskBucket_Delete, Bolt.Bucket_Delete. simpl. done.
  - intros k'.
    rewrite (View_run _ _ _ (delete k (<[k := v]> bk)))
      by (simpl; apply lookup_insert_eq).
    unfold get_into, diskBucket_Get, Bolt.Bucket_Get. simpl.
    destruct (decide (k' = k)) as [->|Hne].
    + by rewrite lookup_delete_eq.
    + by rewrite lookup_delete_ne, lookup_insert_ne.
Qed.

Lemma put_then_delete_witness :
  exists r1 r2,
    Update Sample.store1 (put (bytes_of "a") (bytes_of "v")) (mkRuntime 10 tt)
    = ((None, r1), mkRuntime 10 tt) /\
    Update r1 (del (bytes_of "a")) (mkRuntime 10 tt) = ((None, r2), mkRuntime 10 tt) /\
    forall k',
      View r2 (get_into k') (mkRuntime 20 None)
      = ((None, r2),
         mkRuntime 20 (if decide (k' = bytes_of "a") then None else Sample.bucket1 !! k')).
Proof.
  apply (put_then_delete Sample.store1 (mkRuntime 10 tt) (mkRuntime 20 None) Sample.bucket1).
  - reflexivity.
  - unfold valid_entry. vm_compute. repeat split; discriminate.
Defined.



(** X6. A dry run tells what the update would answer: for a transaction
    function that depends on the bucket alone and fails only with errors that
    exist already, [UpdateDryRun] hands back the very error [Update] hands
    back on the same store, nil for nil. *)
Theorem dry_run_predicts_update {W} (r : diskDB) (st : runtime W)
    (bk : gmap bytes bytes) (g : diskBucket -> option error * diskBucket) :
  Bolt.db_buckets (db r) !! bucket r = Some bk ->
  (forall x e, fst (g x) = Some e -> (err_addr e < next st)%nat) ->
  fst (fst (UpdateDryRun r (pure_txfn g) st)) = fst (fst (Update r (pure_txfn g) st)) /\
  snd (fst (UpdateDryRun r (pure_txfn g) st)) = r.
Proof.
  intros Hb Hold.
  rewrite (TrieProps.UpdateDryRun_run r _ st bk Hb), (Update_run r _ st bk Hb).
  unfold pure_txfn.
  destruct (g _) as [[e|] bk'] eqn:Hg; simpl; [|done].
  assert (err_addr e < next st)%nat as Hlt by (eapply Hold; by rewrite Hg).
  replace (Nat.eqb (err_addr e) (next st)) with false
    by (symmetry; apply Nat.eqb_neq; lia).
  done.
Qed.

Lemma dry_run_predicts_update_witness :
  fst (fst (UpdateDryRun Sample.store1 (pure_txfn Sample.put_nokey) (mkRuntime 10 tt)))
  = fst (fst (Update Sample.store1 (pure_txfn Sample.put_nokey) (mkRuntime 10 tt))) /\
  snd (fst (UpdateDryRun Sample.store1 (pure_txfn Sample.put_nokey) (mkRuntime 10 tt)))
  = Sample.store1.
Proof.
  apply (dry_run_predicts_update Sample.store1 (mkRuntime 10 tt) Sample.bucket1
           Sample.put_nokey).
  - reflexivity.
  - intros x e. unfold Sample.put_nokey, diskBucket_Put, Bolt.Bucket_Put.
    destruct (negb _); simpl; intros [= <-]; simpl; lia.
Defined.

Example dry_run_put_nokey :
  fst (fst (UpdateDryRun Sample.store1 (pure_txfn Sample.put_nokey) (mkRuntime 10 tt)))
  = Some Bolt.ErrKeyRequired.
Proof.
  rewrite (TrieProps.UpdateDryRun_run _ _ _ Sample.bucket1) by reflexivity. reflexivity.
Qed.

End TrieMore.

(** ** The Calypso contracts: every path of the three operations *)

Module CalypsoMore.
Import Byzcoin Calypso Conditions.

Lemma nonempty_len {A} (l : list A) : (len l =? 0) = false -> l <> [].
Proof. intros H ->. discriminate H. Qed.

Lemma threshold_le (n : Z) : 0 <= n -> n - (n - 1) `quot` 3 <= n.
Proof.
  intros Hn. destruct (Z.eq_dec n 0) as [->|Hne]; [done|].
  assert (0 <= (n - 1) `quot` 3) by (apply Z.quot_pos; lia). lia.
Qed.

Lemma threshold_two_thirds (n : Z) : 1 <= n -> 2 * n < 3 * (n - (n - 1) `quot` 3).
Proof.
  intros Hn. rewrite Z.quot_div_nonneg by lia.
  pose proof (Z.mul_div_le (n - 1) 3 ltac:(lia)). lia.
Qed.

Lemma size_identities_le (ro : Onet.Roster) :
  Z.of_nat (size (identities ro)) <= len (Onet.List ro).
Proof.
  unfold identities, len. induction (Onet.List ro) as [|x l IH]; [done|].
  rewrite fmap_cons, list_to_set_cons, size_union_alt, size_singleton.
  assert (size (list_to_set (Onet.ID <$> l) ∖ {[Onet.ID x]} : gset bytes)
          <= size (list_to_set (Onet.ID <$> l) : gset bytes))%nat
    by (apply subseteq_size, subseteq_difference_l; done).
  simpl. lia.
Qed.

Section Contracts.

Variable Write : Type.
Variable decodeWrite : bytes -> error + Write.
Variable decodeRead : bytes -> error + Read.
Variable decodeLtsInstanceInfo : bytes -> error + LtsInstanceInfo.
Variable CheckProof : Write -> bytes -> option error.
Variable DeriveID : Instruction -> string -> bytes.

Local Abbreviation Wr_Spawn :=
  (contractWr_Spawn Write decodeWrite decodeRead CheckProof DeriveID).
Local Abbreviation LTS_Spawn :=
  (contractLTS_Spawn decodeLtsInstanceInfo DeriveID).
Local Abbreviation LTS_Invoke :=
  (contractLTS_Invoke decodeLtsInstanceInfo).

(** What a reshare that went through has passed. *)
Lemma LTS_Invoke_success (rst : gmap bytes StateValue) (inst : Instruction)
    (coins : list Coin) (sc : list StateChange) (cout : list Coin) :
  LTS_Invoke rst inst coins = Returns sc cout None ->
  exists cv inv cur new,
    rst !! InstanceID inst = Some cv /\
    Invoke inst = Some inv /\
    Command inv = "reshare"%string /\
    Search (Invoke_Args inv) "lts_instance_info" <> [] /\
    decodeLtsInstanceInfo (Search (Invoke_Args inv) "lts_instance_info") = inr new /\
    decodeLtsInstanceInfo (sv_Value cv) = inr cur /\
    len (Onet.List (Roster cur)) - (len (Onet.List (Roster cur)) - 1) `quot` 3
      <= intersectRosters (Roster cur) (Roster new) /\
    sc = [NewStateChange Update (InstanceID inst) ContractLongTermSecretID
            (Search (Invoke_Args inv) "lts_instance_info") (sv_DarcID cv)] /\
    cout = coins.
Proof.
  unfold contractLTS_Invoke, GetValues.
  destruct (rst !! InstanceID inst) as [cv|] eqn:Hc; [|done].
  destruct (Invoke inst) as [inv|] eqn:Hinv; [|done].
  destruct (String.eqb (Command inv) "reshare") eqn:Hcmd; [|done]. simpl.
  destruct (len _ =? 0) eqn:Hlen; [done|].
  destruct (decodeLtsInstanceInfo (Search _ _)) as [e|new] eqn:Hnew; [done|].
  destruct (decodeLtsInstanceInfo (sv_Value cv)) as [e|cur] eqn:Hcur; [done|].
  destruct (_ <? _) eqn:Hlt; [done|].
  intros [= <- <-]. exists cv, inv, cur, new.
  apply String.eqb_eq in Hcmd. apply Z.ltb_ge in Hlt. apply nonempty_len in Hlen.
  done.
Qed.

(** X7. A contract spawns only what is its own: the Write contract refuses
    any contract ID other than Write's and Read's, the long-term-secret
    contract any other than its own, whatever the arguments; nothing is
    emitted. *)
Theorem spawn_foreign_contract (rst : gmap bytes StateValue) (inst : Instruction)
    (sp : Spawn_t) (coins : list Coin) (tv : StateValue) :
  rst !! InstanceID inst = Some tv ->
  Spawn inst = Some sp ->
  (Spawn_ContractID sp <> ContractWriteID -> Spawn_ContractID sp <> ContractReadID ->
     Wr_Spawn rst inst coins
     = Returns [] coins (Some "can only spawn writes and reads"%string)) /\
  (Spawn_ContractID sp <> ContractLongTermSecretID ->
     LTS_Spawn rst inst coins
     = Returns [] [] (Some "can only spawn long-term-secret instances"%string)).
Proof.
  intros Ht Hsp. split.
  - intros Hw Hr. unfold contractWr_Spawn, GetValues. rewrite Ht, Hsp.
    apply String.eqb_neq in Hw, Hr. by rewrite Hw, Hr.
  - intros Hl. unfold contractLTS_Spawn, GetValues. rewrite Ht, Hsp.
    apply String.eqb_neq in Hl. by rewrite Hl.
Qed.

(** X8. When the instance an instruction targets is not in the state, each of
    the three operations hands back the error of the lookup as it is and
    emits nothing, whatever else the instruction holds; the Write contract
    hands the coins back, the long-term-secret contract does not. *)
Theorem missing_target (rst : gmap bytes StateValue) (inst : Instruction)
    (coins : list Coin) :
  rst !! InstanceID inst = None ->
  Wr_Spawn rst inst coins = Returns [] coins (Some errKeyNotSet) /\
  LTS_Spawn rst inst coins = Returns [] [] (Some errKeyNotSet) /\
  LTS_Invoke rst inst coins = Returns [] [] (Some errKeyNotSet).
Proof.
  intros Ht.
  unfold contractWr_Spawn, contractLTS_Spawn, contractLTS_Invoke, GetValues.
  by rewrite Ht.
Qed.

(** X9. An operation dereferences a nil pointer exactly when the targeted
    instance exists and the instruction is not of the operation's kind: a
    spawn on an instruction without [Spawn], an invoke on one without
    [Invoke]. *)
Theorem panics_iff (rst : gmap bytes StateValue) (inst : Instruction) (coins : list Coin) :
  (Wr_Spawn rst inst coins = Panics
     <-> is_Some (rst !! InstanceID inst) /\ Spawn inst = None) /\
  (LTS_Spawn rst inst coins = Panics
     <-> is_Some (rst !! InstanceID inst) /\ Spawn inst = None) /\
  (LTS_Invoke rst inst coins = Panics
     <-> is_Some (rst !! InstanceID inst) /\ Invoke inst = None).
Proof.
  unfold contractWr_Spawn, contractLTS_Spawn, contractLTS_Invoke, GetValues.
  destruct (rst !! InstanceID inst) as [tv|]; simpl;
    destruct (Spawn inst) as [sp|]; destruct (Invoke inst) as [inv|];
    (split; [|split]); (split; [intros Hx|intros [[? ?] ?]]); try done;
    try (split; [by eexists|done]);
    exfalso; revert Hx; repeat case_match; done.
Qed.

(** X10. Whenever one of the three operations succeeds, it hands the coins
    back unchanged and emits exactly one state change: never a removal, never
    an empty value, always under the policy of the targeted instance; a
    creation is for the identifier derived from the instruction, an update for
    the targeted instance itself. *)
Theorem success_shape (rst : gmap bytes StateValue) (inst : Instruction)
    (coins : list Coin)
    (op : gmap bytes StateValue -> Instruction -> list Coin -> outcome)
    (sc : list StateChange) (cout : list Coin) :
  In op [Wr_Spawn; LTS_Spawn; LTS_Invoke] ->
  op rst inst coins = Returns sc cout None ->
  cout = coins /\
  exists tv c,
    rst !! InstanceID inst = Some tv /\
    sc = [c] /\
    SC_DarcID c = sv_DarcID tv /\
    SC_Value c <> [] /\
    Action c <> Remove /\
    (Action c = Create -> SC_InstanceID c = DeriveID inst "") /\
    (Action c = Update -> SC_InstanceID c = InstanceID inst).
Proof.
  intros [<-|[<-|[<-|[]]]].
  - unfold contractWr_Spawn, GetValues.
    destruct (rst !! InstanceID inst) as [tv|] eqn:Ht; [|done].
    destruct (Spawn inst) as [sp|]; [|done].
    destruct (String.eqb _ ContractWriteID).
    + destruct (len _ =? 0) eqn:Hlen; [done|]. apply nonempty_len in Hlen.
      destruct (decodeWrite _); [done|]. destruct (CheckProof _ _); [done|].
      intros [= <- <-]. split; [done|]. by do 2 eexists.
    + destruct (String.eqb _ ContractReadID); [|done].
      destruct (len _ =? 0) eqn:Hlen; [done|]. apply nonempty_len in Hlen.
      destruct (decodeRead _) as [|rd]; [done|].
      destruct (rst !! Read_Write rd); [|done]. destruct (negb _); [done|].
      intros [= <- <-]. split; [done|]. by do 2 eexists.
  - unfold contractLTS_Spawn, GetValues.
    destruct (rst !! InstanceID inst) as [tv|] eqn:Ht; [|done].
    destruct (Spawn inst) as [sp|]; [|done].
    destruct (negb _); [done|].
    destruct (len _ =? 0) eqn:Hlen; [done|]. apply nonempty_len in Hlen.
    destruct (decodeLtsInstanceInfo _); [done|].
    intros [= <- <-]. split; [done|]. by do 2 eexists.
  - intros H. apply LTS_Invoke_success in H
      as (cv & inv & cur & new & Hc & _ & _ & Hne & _ & _ & _ & -> & ->).
    split; [done|]. by do 2 eexists.
Qed.

(** X11. Spawning a long-term-secret instance on an existing target: an
    absent payload fails with MissingArgument, one that does not decode with
    DecodeError, and any payload that decodes is accepted, whatever its
    roster, with one Create state change holding the payload as it came. *)
Theorem lts_spawn_cases (rst : gmap bytes StateValue) (inst : Instruction)
    (sp : Spawn_t) (coins : list Coin) (tv : StateValue) :
  rst !! InstanceID inst = Some tv ->
  Spawn inst = Some sp ->
  Spawn_ContractID sp = ContractLongTermSecretID ->
  let infoBuf := Search (Spawn_Args sp) "lts_instance_info" in
  let out := LTS_Spawn rst inst coins in
  (infoBuf = [] ->
     exists e, out = Returns [] [] (Some e) /\ MissingArgument e = true) /\
  (infoBuf <> [] -> forall d, decodeLtsInstanceInfo infoBuf = inl d ->
     exists e, out = Returns [] [] (Some e) /\ DecodeError e = true) /\
  (infoBuf <> [] -> forall info, decodeLtsInstanceInfo infoBuf = inr info ->
     out = Returns
             [NewStateChange Create (DeriveID inst "") ContractLongTermSecretID infoBuf
                (sv_DarcID tv)]
             coins None).
Proof.
  intros Ht Hsp Hc infoBuf out. subst out. unfold contractLTS_Spawn.
  rewrite (CalypsoProps.GetValues_Some _ _ _ Ht), Hsp, Hc. simpl. fold infoBuf.
  split; [|split].
  - intros ->. simpl. eexists. split; [reflexivity|done].
  - intros Hne d Hd. rewrite (CalypsoProps.len_nonzero _ Hne), Hd.
    eexists. split; [reflexivity|]. unfold DecodeError, errors_New.
    rewrite (CalypsoProps.prefix_append "passed lts_instance_info argument is invalid: ").
    by rewrite !orb_true_r.
  - intros Hne info Hd. by rewrite (CalypsoProps.len_nonzero _ Hne), Hd.
Qed.

(** X12. The checks of an invoke come in this order: a command other than
    "reshare" fails with UnsupportedCommand whatever the arguments; then an
    absent payload fails with MissingArgument; then a new payload that does
    not decode fails with DecodeError, before the stored one is looked at;
    then a stored value that does not decode fails with DecodeError. *)
Theorem lts_invoke_checks (rst : gmap bytes StateValue) (inst : Instruction)
    (inv : Invoke_t) (coins : list Coin) (cv : StateValue) :
  rst !! InstanceID inst = Some cv ->
  Invoke inst = Some inv ->
  let infoBuf := Search (Invoke_Args inv) "lts_instance_info" in
  let out := LTS_Invoke rst inst coins in
  (Command inv <> "reshare"%string ->
     exists e, out = Returns [] [] (Some e) /\ UnsupportedCommand e = true) /\
  (Command inv = "reshare"%string -> infoBuf = [] ->
     exists e, out = Returns [] [] (Some e) /\ MissingArgument e = true) /\
  (Command inv = "reshare"%string -> infoBuf <> [] ->
     forall d, decodeLtsInstanceInfo infoBuf = inl d ->
     out = Returns [] []
             (Some ("passed lts_instance_info argument is invalid: " +:+ d))) /\
  (Command inv = "reshare"%string -> infoBuf <> [] ->
     forall new d, decodeLtsInstanceInfo infoBuf = inr new ->
     decodeLtsInstanceInfo (sv_Value cv) = inl d ->
     out = Returns [] [] (Some ("current info is invalid: " +:+ d))).
Proof.
  intros Hc Hinv infoBuf out. subst out. unfold contractLTS_Invoke.
  rewrite (CalypsoProps.GetValues_Some _ _ _ Hc), Hinv.
  split; [|split; [|split]].
  - intros Hcmd. apply String.eqb_neq in Hcmd. rewrite Hcmd. simpl.
    eexists. split; [reflexivity|done].
  - intros -> Hb. simpl. fold infoBuf. rewrite Hb. simpl.
    eexists. split; [reflexivity|done].
  - intros -> Hb d Hd. simpl. fold infoBuf.
    by rewrite (CalypsoProps.len_nonzero _ Hb), Hd.
  - intros -> Hb new d Hnew Hd. simpl. fold infoBuf.
    by rewrite (CalypsoProps.len_nonzero _ Hb), Hnew, Hd.
Qed.

End Contracts.

End CalypsoMore.

(** ** Resharing: what the overlap check lets through *)

Module ReshareMore.
Import Byzcoin Calypso Conditions.

Local Abbreviation known_to r1 := (fun x => Onet.ID x ∈ Onet.ID <$> Onet.List r1).

Lemma filter_known_self (l0 l : list Onet.ServerIdentity) :
  l ⊆ l0 -> filter (fun x => Onet.ID x ∈ Onet.ID <$> l0) l = l.
Proof.
  induction l as [|x l IH]; intros Hsub; [done|].
  rewrite filter_cons_True.
  - f_equal. apply IH. intros y Hy. apply Hsub. by right.
  - apply list_elem_of_fmap. exists x. split; [done|]. apply Hsub. by left.
Qed.

(** X13. The overlap counted by [intersectRosters] lies between 0 and the
    size of the second roster; it is 0 when the first roster is empty, and
    the size of the roster when a roster is compared with itself. *)
Theorem intersectRosters_bounds (r1 r2 : Onet.Roster) :
  0 <= intersectRosters r1 r2 <= len (Onet.List r2) /\
  (Onet.List r1 = [] -> intersectRosters r1 r2 = 0) /\
  intersectRosters r1 r1 = len (Onet.List r1).
Proof.
  rewrite !CalypsoProps.intersectRosters_count. unfold len. split; [|split].
  - pose proof (length_filter (known_to r1) (Onet.List r2)). lia.
  - intros Hnil. rewrite Hnil. simpl.
    induction (Onet.List r2) as [|x l IH]; [done|].
    rewrite filter_cons_False; [done|]. apply not_elem_of_nil.
  - by rewrite filter_known_self.
Qed.

Lemma overlap_of_extension (cur new : Onet.Roster) :
  Onet.List cur ⊆+ Onet.List new ->
  len (Onet.List cur) <= intersectRosters cur new.
Proof.
  intros Hsub. rewrite CalypsoProps.intersectRosters_count. unfold len.
  apply submseteq_Permutation in Hsub as [k Hk].
  rewrite Hk, filter_app, length_app, filter_known_self by done. lia.
Qed.

Section Contracts.

Variable decodeLtsInstanceInfo : bytes -> error + LtsInstanceInfo.

Local Abbreviation LTS_Invoke :=
  (contractLTS_Invoke decodeLtsInstanceInfo).

(** X14. A reshare that keeps every current member always goes through: when
    the new roster holds all the members of the current one, in any order and
    with any number of members added, the invoke succeeds with one Update
    state change. *)
Theorem reshare_keeping_all_members (rst : gmap bytes StateValue)
    (inst : Instruction) (inv : Invoke_t) (coins : list Coin)
    (cv : StateValue) (cur new : LtsInstanceInfo) :
  rst !! InstanceID inst = Some cv ->
  Invoke inst = Some inv ->
  Command inv = "reshare"%string ->
  Search (Invoke_Args inv) "lts_instance_info" <> [] ->
  decodeLtsInstanceInfo (Search (Invoke_Args inv) "lts_instance_info") = inr new ->
  decodeLtsInstanceInfo (sv_Value cv) = inr cur ->
  Onet.List (Roster cur) ⊆+ Onet.List (Roster new) ->
  LTS_Invoke rst inst coins
  = Returns
      [NewStateChange Update (InstanceID inst) ContractLongTermSecretID
         (Search (Invoke_Args inv) "lts_instance_info") (sv_DarcID cv)]
      coins None.
Proof.
  intros Hc Hinv Hcmd Hbuf Hnew Hcur Hsub. unfold contractLTS_Invoke.
  rewrite (CalypsoProps.GetValues_Some _ _ _ Hc), Hinv, Hcmd. simpl.
  rewrite (CalypsoProps.len_nonzero _ Hbuf), Hnew, Hcur.
  pose proof (overlap_of_extension _ _ Hsub) as Hov.
  pose proof (CalypsoMore.threshold_le (len (Onet.List (Roster cur)))
                ltac:(unfold len; lia)) as Hthr.
  replace (_ <? _) with false; [done|].
  symmetry. apply Z.ltb_ge. lia.
Qed.

(** X15. A reshare that goes through keeps more than two thirds: with [n >= 1]
    current members, the members of the new roster known to the current one
    number more than [2n/3]; and when neither roster repeats a member, fewer
    than a third of the current identities are missing from the new roster. *)
Theorem reshare_keeps_two_thirds (rst : gmap bytes StateValue)
    (inst : Instruction) (inv : Invoke_t) (coins : list Coin)
    (sc : list StateChange) (cout : list Coin)
    (cv : StateValue) (cur new : LtsInstanceInfo) :
  rst !! InstanceID inst = Some cv ->
  Invoke inst = Some inv ->
  decodeLtsInstanceInfo (Search (Invoke_Args inv) "lts_instance_info") = inr new ->
  decodeLtsInstanceInfo (sv_Value cv) = inr cur ->
  1 <= len (Onet.List (Roster cur)) ->
  LTS_Invoke rst inst coins = Returns sc cout None ->
  2 * len (Onet.List (Roster cur)) < 3 * intersectRosters (Roster cur) (Roster new) /\
  (NoDup (Onet.ID <$> Onet.List (Roster cur)) ->
   NoDup (Onet.ID <$> Onet.List (Roster new)) ->
   3 * Z.of_nat (size (identities (Roster cur) ∖ identities (Roster new)))
   < len (Onet.List (Roster cur))).
Proof.
  intros Hc Hinv Hnew Hcur Hn Hok.
  apply (CalypsoMore.LTS_Invoke_success decodeLtsInstanceInfo) in Hok
    as (cv' & inv' & cur' & new' & Hc' & Hinv' & _ & _ & Hnew' & Hcur' & Hthr & _ & _).
  rewrite Hc in Hc'. injection Hc' as <-.
  rewrite Hinv in Hinv'. injection Hinv' as <-.
  rewrite Hnew in Hnew'. injection Hnew' as <-.
  rewrite Hcur in Hcur'. injection Hcur' as <-.
  pose proof (CalypsoMore.threshold_two_thirds _ Hn) as H23.
  split; [lia|].
  intros Hndc Hndn.
  rewrite (CalypsoProps.intersectRosters_common _ _ Hndn) in Hthr.
  unfold common_identities in Hthr.
  assert (Hsize : size (identities (Roster cur)) = length (Onet.List (Roster cur))).
  { unfold identities. rewrite size_list_to_set by done. apply length_fmap. }
  pose proof (size_difference_alt (identities (Roster cur)) (identities (Roster new))) as Hd.
  pose proof (subseteq_size (identities (Roster cur) ∩ identities (Roster new))
                (identities (Roster cur)) (intersection_subseteq_l _ _)) as Hle.
  unfold len in *. lia.
Qed.

(** X16. Two reshares that the same current roster lets through have a
    member in common: when two new rosters, neither repeating a member, both
    pass the overlap check against a current roster of at least one member,
    some identity belongs to the current roster and to both new ones. *)
Theorem accepted_rosters_share_a_member (rst : gmap bytes StateValue)
    (inst1 inst2 : Instruction) (inv1 inv2 : Invoke_t) (coins1 coins2 : list Coin)
    (sc1 sc2 : list StateChange) (cout1 cout2 : list Coin)
    (cv : StateValue) (cur new1 new2 : LtsInstanceInfo) :
  InstanceID inst2 = InstanceID inst1 ->
  rst !! InstanceID inst1 = Some cv ->
  decodeLtsInstanceInfo (sv_Value cv) = inr cur ->
  1 <= len (Onet.List (Roster cur)) ->
  Invoke inst1 = Some inv1 ->
  Invoke inst2 = Some inv2 ->
  decodeLtsInstanceInfo (Search (Invoke_Args inv1) "lts_instance_info") = inr new1 ->
  decodeLtsInstanceInfo (Search (Invoke_Args inv2) "lts_instance_info") = inr new2 ->
  NoDup (Onet.ID <$> Onet.List (Roster new1)) ->
  NoDup (Onet.ID <$> Onet.List (Roster new2)) ->
  LTS_Invoke rst inst1 coins1 = Returns sc1 cout1 None ->
  LTS_Invoke rst inst2 coins2 = Returns sc2 cout2 None ->
  exists id,
    id ∈ identities (Roster cur) /\
    id ∈ identities (Roster new1) /\
    id ∈ identities (Roster new2).
Proof.
  intros Hid Hc Hcur Hn Hinv1 Hinv2 Hnew1 Hnew2 Hnd1 Hnd2 Hok1 Hok2.
  apply (CalypsoMore.LTS_Invoke_success decodeLtsInstanceInfo) in Hok1
    as (cv1 & i1 & cur1 & n1 & Hc1 & Hi1 & _ & _ & Hn1 & Hcur1 & Hthr1 & _ & _).
  apply (CalypsoMore.LTS_Invoke_success decodeLtsInstanceInfo) in Hok2
    as (cv2 & i2 & cur2 & n2 & Hc2 & Hi2 & _ & _ & Hn2 & Hcur2 & Hthr2 & _ & _).
  rewrite Hid in Hc2.
  rewrite Hc in Hc1, Hc2. injection Hc1 as <-. injection Hc2 as <-.
  rewrite Hinv1 in Hi1. injection Hi1 as <-.
  rewrite Hinv2 in Hi2. injection Hi2 as <-.
  rewrite Hnew1 in Hn1. injection Hn1 as <-.
  rewrite Hnew2 in Hn2. injection Hn2 as <-.
  rewrite Hcur in Hcur1, Hcur2. injection Hcur1 as <-. injection Hcur2 as <-.
  rewrite (CalypsoProps.intersectRosters_common _ _ Hnd1) in Hthr1.
  rewrite (CalypsoProps.intersectRosters_common _ _ Hnd2) in Hthr2.
  unfold common_identities in Hthr1, Hthr2.
  pose proof (CalypsoMore.threshold_two_thirds _ Hn) as H23.
  pose proof (CalypsoMore.size_identities_le (Roster cur)) as Hsz.
  set (C := identities (Roster cur)) in *.
  set (A := identities (Roster new1)) in *.
  set (B := identities (Roster new2)) in *.
  destruct (set_choose_or_empty ((C ∩ A) ∩ (C ∩ B))) as [[id Hin]|Hempty].
  - exists id.
    apply elem_of_intersection in Hin as [Hin1 Hin2].
    apply elem_of_intersection in Hin1 as [HinC HinA].
    apply elem_of_intersection in Hin2 as [_ HinB]. done.
  - exfalso.
    assert (Hdisj : (C ∩ A) ## (C ∩ B)) by (by apply disjoint_intersection).
    pose proof (size_union _ _ Hdisj) as Hu.
    assert (Hsub : (C ∩ A) ∪ (C ∩ B) ⊆ C)
      by (apply union_least; apply intersection_subseteq_l).
    pose proof (subseteq_size _ _ Hsub) as Hle.
    lia.
Qed.

End Contracts.

End ReshareMore.

(** ** What a spawn stores and what loads it back *)

Module ReloadMore.
Import Byzcoin Calypso Conditions.

Section Contracts.

Variable Write : Type.
Variable decodeWrite : bytes -> error + Write.
Variable decodeRead : bytes -> error + Read.
Variable decodeLtsInstanceInfo : bytes -> error + LtsInstanceInfo.
Variable CheckProof : Write -> bytes -> option error.
Variable DeriveID : Instruction -> string -> bytes.

Local Abbreviation Wr_Spawn :=
  (contractWr_Spawn Write decodeWrite decodeRead CheckProof DeriveID).
Local Abbreviation LTS_Spawn :=
  (contractLTS_Spawn decodeLtsInstanceInfo DeriveID).
Local Abbreviation LTS_Invoke :=
  (contractLTS_Invoke decodeLtsInstanceInfo).

(** X17. The value a long-term-secret instance is given, by a spawn or by a
    reshare, is one [contractLTSFromBytes] loads back without error. *)
Theorem lts_value_loads_back (rst : gmap bytes StateValue) (inst : Instruction)
    (coins : list Coin)
    (op : gmap bytes StateValue -> Instruction -> list Coin -> outcome)
    (sc : list StateChange) (cout : list Coin) :
  In op [LTS_Spawn; LTS_Invoke] ->
  op rst inst coins = Returns sc cout None ->
  Forall (fun c => exists info,
            contractLTSFromBytes decodeLtsInstanceInfo (SC_Value c) = (Some info, None))
         sc.
Proof.
  intros [<-|[<-|[]]].
  - unfold contractLTS_Spawn, GetValues.
    destruct (rst !! InstanceID inst); [|done].
    destruct (Spawn inst); [|done].
    destruct (negb _); [done|]. destruct (len _ =? 0); [done|].
    destruct (decodeLtsInstanceInfo _) as [|info] eqn:Hd; [done|].
    intros [= <- <-]. constructor; [|constructor].
    exists info. unfold contractLTSFromBytes. simpl. by rewrite Hd.
  - intros H. apply (CalypsoMore.LTS_Invoke_success decodeLtsInstanceInfo) in H
      as (cv & inv & cur & new & _ & _ & _ & _ & Hd & _ & _ & -> & _).
    constructor; [|constructor].
    exists new. unfold contractLTSFromBytes. simpl. by rewrite Hd.
Qed.

(** X18. The value a Write spawn stores is one [contractWriteFromBytes]
    loads back without error and that passes the proof check under the policy
    stored with it; the value a Read spawn stores is never loaded back, since
    [contractReadFromBytes] refuses every input. *)
Theorem spawned_value_loads_back (rst : gmap bytes StateValue) (inst : Instruction)
    (coins : list Coin) (sc : list StateChange) (cout : list Coin) :
  Wr_Spawn rst inst coins = Returns sc cout None ->
  Forall (fun c =>
            (SC_ContractID c = ContractWriteID /\
             exists w, contractWriteFromBytes Write decodeWrite (SC_Value c) = (Some w, None)
                       /\ CheckProof w (SC_DarcID c) = None) \/
            (SC_ContractID c = ContractReadID /\
             fst (contractReadFromBytes (SC_Value c)) = None))
         sc.
Proof.
  unfold contractWr_Spawn, GetValues.
  destruct (rst !! InstanceID inst); [|done].
  destruct (Spawn inst); [|done].
  destruct (String.eqb _ ContractWriteID).
  - destruct (len _ =? 0); [done|].
    destruct (decodeWrite _) as [|w] eqn:Hd; [done|].
    destruct (CheckProof _ _) eqn:Hp; [done|].
    intros [= <- <-]. constructor; [|constructor]. left. split; [done|].
    exists w. unfold contractWriteFromBytes. simpl. by rewrite Hd.
  - destruct (String.eqb _ ContractReadID); [|done].
    destruct (len _ =? 0); [done|]. destruct (decodeRead _) as [|rd]; [done|].
    destruct (rst !! Read_Write rd); [|done]. destruct (negb _); [done|].
    intros [= <- <-]. constructor; [|constructor]. by right.
Qed.

End Contracts.

(** *** On concrete instructions *)

Lemma spawn_foreign_contract_witness :
  Wire.Spawn Wire.state0 (Wire.spawn "coin" "write" (bytes_of "Wdarc-1")) []
  = Returns [] [] (Some "can only spawn writes and reads"%string).
Proof.
  refine (proj1
    (CalypsoMore.spawn_foreign_contract bytes Wire.decodeWrite Wire.decodeRead
       Wire.decodeLtsInstanceInfo Wire.CheckProof Wire.DeriveID Wire.state0
       (Wire.spawn "coin" "write" (bytes_of "Wdarc-1"))
       (mkSpawn "coin" [mkArgument "write" (bytes_of "Wdarc-1")]) []
       (mkStateValue (bytes_of "rules") 0 "darc" (bytes_of "darc-1")) _ _) _ _);
    try reflexivity; discriminate.
Defined.

Lemma missing_target_witness :
  Wire.Spawn Wire.state0
    (mkInstruction (bytes_of "nowhere") None None []) [mkCoin (bytes_of "c") 5]
  = Returns [] [mkCoin (bytes_of "c") 5] (Some errKeyNotSet) /\
  Wire.LTS_Spawn Wire.state0
    (mkInstruction (bytes_of "nowhere") None None []) [mkCoin (bytes_of "c") 5]
  = Returns [] [] (Some errKeyNotSet) /\
  Wire.LTS_Invoke Wire.state0
    (mkInstruction (bytes_of "nowhere") None None []) [mkCoin (bytes_of "c") 5]
  = Returns [] [] (Some errKeyNotSet).
Proof.
  apply (CalypsoMore.missing_target bytes Wire.decodeWrite Wire.decodeRead
           Wire.decodeLtsInstanceInfo Wire.CheckProof Wire.DeriveID).
  reflexivity.
Defined.

Example nil_spawn_panics :
  Wire.Spawn Wire.state0 (mkInstruction (bytes_of "d") None None []) [] = Panics.
Proof. reflexivity. Qed.

Lemma success_shape_witness :
  [mkCoin (bytes_of "c") 5] = [mkCoin (bytes_of "c") 5] /\
  exists tv c,
    Wire.lts_state "abcdefg" !! bytes_of "l" = Some tv /\
    [NewStateChange Update (bytes_of "l") ContractLongTermSecretID
       (bytes_of "Labcdexy") (bytes_of "darc-1")] = [c] /\
    SC_DarcID c = sv_DarcID tv /\
    SC_Value c <> [] /\
    Action c <> Remove /\
    (Action c = Create -> SC_InstanceID c = Wire.DeriveID (Wire.reshare "abcdexy") "") /\
    (Action c = Update -> SC_InstanceID c = bytes_of "l").
Proof.
  apply (CalypsoMore.success_shape bytes Wire.decodeWrite Wire.decodeRead
           Wire.decodeLtsInstanceInfo Wire.CheckProof Wire.DeriveID
           (Wire.lts_state "abcdefg") (Wire.reshare "abcdexy")
           [mkCoin (bytes_of "c") 5] Wire.LTS_Invoke).
  - simpl. tauto.
  - reflexivity.
Defined.

Lemma lts_spawn_cases_witness :
  Wire.LTS_Spawn Wire.state0 (Wire.spawn "longTermSecret" "lts_instance_info" (bytes_of "L")) []
  = Returns
      [NewStateChange Create (bytes_of "#d") ContractLongTermSecretID (bytes_of "L")
         (bytes_of "darc-1")]
      [] None.
Proof.
  refine (proj2 (proj2
    (CalypsoMore.lts_spawn_cases Wire.decodeLtsInstanceInfo Wire.DeriveID Wire.state0
       (Wire.spawn "longTermSecret" "lts_instance_info" (bytes_of "L"))
       (mkSpawn "longTermSecret" [mkArgument "lts_instance_info" (bytes_of "L")]) []
       (mkStateValue (bytes_of "rules") 0 "darc" (bytes_of "darc-1")) _ _ _))
    _ (mkLtsInstanceInfo (Wire.roster_of "")) _); try reflexivity.
  discriminate.
Defined.

Lemma lts_invoke_checks_witness :
  exists e,
    Wire.LTS_Invoke (Wire.lts_state "abc")
      (mkInstruction (bytes_of "l") None
         (Some (mkInvoke "rotate" [mkArgument "lts_instance_info" (bytes_of "Labc")])) [])
      []
    = Returns [] [] (Some e) /\ UnsupportedCommand e = true.
Proof.
  refine (proj1
    (CalypsoMore.lts_invoke_checks Wire.decodeLtsInstanceInfo (Wire.lts_state "abc")
       (mkInstruction (bytes_of "l") None
          (Some (mkInvoke "rotate" [mkArgument "lts_instance_info" (bytes_of "Labc")])) [])
       (mkInvoke "rotate" [mkArgument "lts_instance_info" (bytes_of "Labc")]) []
       (mkStateValue (bytes_of "Labc") 0 "longTermSecret" (bytes_of "darc-1")) _ _) _);
    try reflexivity.
  discriminate.
Defined.

Example lts_invoke_bad_stored_value :
  Wire.LTS_Invoke
    (<[bytes_of "l" := mkStateValue (bytes_of "junk") 0 "longTermSecret" (bytes_of "darc-1")]> ∅)
    (Wire.reshare "abc") []
  = Returns [] [] (Some "current info is invalid: not a roster"%string).
Proof. reflexivity. Qed.

Lemma submseteq_members (s1 s2 : string) :
  bool_decide (bytes_of s1 ⊆+ bytes_of s2) = true ->
  Onet.List (Wire.roster_of s1) ⊆+ Onet.List (Wire.roster_of s2).
Proof.
  intros H. apply bool_decide_eq_true_1 in H. unfold Wire.roster_of. simpl.
  by apply fmap_submseteq.
Qed.

(** All three current members kept, in another order, and two added. *)
Lemma reshare_keeping_all_members_witness :
  Wire.LTS_Invoke (Wire.lts_state "abc") (Wire.reshare "xcbay") []
  = Returns
      [NewStateChange Update (bytes_of "l") ContractLongTermSecretID (bytes_of "Lxcbay")
         (bytes_of "darc-1")]
      [] None.
Proof.
  refine (ReshareMore.reshare_keeping_all_members Wire.decodeLtsInstanceInfo
            (Wire.lts_state "abc") (Wire.reshare "xcbay")
            (mkInvoke "reshare" [mkArgument "lts_instance_info" (bytes_of "Lxcbay")]) []
            (mkStateValue (bytes_of "Labc") 0 "longTermSecret" (bytes_of "darc-1"))
            (mkLtsInstanceInfo (Wire.roster_of "abc"))
            (mkLtsInstanceInfo (Wire.roster_of "xcbay")) _ _ _ _ _ _ _);
    try reflexivity.
  - discriminate.
  - apply submseteq_members. reflexivity.
Defined.

Lemma reshare_keeps_two_thirds_witness :
  2 * 7 < 3 * intersectRosters (Wire.roster_of "abcdefg") (Wire.roster_of "abcdexy") /\
  (NoDup (Onet.ID <$> Onet.List (Wire.roster_of "abcdefg")) ->
   NoDup (Onet.ID <$> Onet.List (Wire.roster_of "abcdexy")) ->
   3 * Z.of_nat (size (identities (Wire.roster_of "abcdefg")
                       ∖ identities (Wire.roster_of "abcdexy")))
   < 7).
Proof.
  refine (ReshareMore.reshare_keeps_two_thirds Wire.decodeLtsInstanceInfo
            (Wire.lts_state "abcdefg") (Wire.reshare "abcdexy")
            (mkInvoke "reshare" [mkArgument "lts_instance_info" (bytes_of "Labcdexy")]) []
            [NewStateChange Update (bytes_of "l") ContractLongTermSecretID
               (bytes_of "Labcdexy") (bytes_of "darc-1")] []
            (mkStateValue (bytes_of "Labcdefg") 0 "longTermSecret" (bytes_of "darc-1"))
            (mkLtsInstanceInfo (Wire.roster_of "abcdefg"))
            (mkLtsInstanceInfo (Wire.roster_of "abcdexy")) _ _ _ _ _ _);
    try reflexivity.
  vm_compute. discriminate.
Defined.

Lemma accepted_rosters_share_a_member_witness :
  exists id,
    id ∈ identities (Wire.roster_of "abcdefg") /\
    id ∈ identities (Wire.roster_of "abcdexy") /\
    id ∈ identities (Wire.roster_of "pqcdefg").
Proof.
  refine (ReshareMore.accepted_rosters_share_a_member Wire.decodeLtsInstanceInfo
            (Wire.lts_state "abcdefg") (Wire.reshare "abcdexy") (Wire.reshare "pqcdefg")
            (mkInvoke "reshare" [mkArgument "lts_instance_info" (bytes_of "Labcdexy")])
            (mkInvoke "reshare" [mkArgument "lts_instance_info" (bytes_of "Lpqcdefg")])
            [] []
            [NewStateChange Update (bytes_of "l") ContractLongTermSecretID
               (bytes_of "Labcdexy") (bytes_of "darc-1")]
            [NewStateChange Update (bytes_of "l") ContractLongTermSecretID
               (bytes_of "Lpqcdefg") (bytes_of "darc-1")] [] []
            (mkStateValue (bytes_of "Labcdefg") 0 "longTermSecret" (bytes_of "darc-1"))
            (mkLtsInstanceInfo (Wire.roster_of "abcdefg"))
            (mkLtsInstanceInfo (Wire.roster_of "abcdexy"))
            (mkLtsInstanceInfo (Wire.roster_of "pqcdefg")) _ _ _ _ _ _ _ _ _ _ _ _);
    try reflexivity.
  - vm_compute. discriminate.
  - apply CalypsoProps.NoDup_members. reflexivity.
  - apply CalypsoProps.NoDup_members. reflexivity.
Defined.

Lemma lts_value_loads_back_witness :
  Forall (fun c => exists info,
            contractLTSFromBytes Wire.decodeLtsInstanceInfo (SC_Value c) = (Some info, None))
    [NewStateChange Create (bytes_of "#d") ContractLongTermSecretID (bytes_of "Labc")
       (bytes_of "darc-1")].
Proof.
  apply (lts_value_loads_back Wire.decodeLtsInstanceInfo Wire.DeriveID Wire.state0
           (Wire.spawn "longTermSecret" "lts_instance_info" (bytes_of "Labc")) []
           Wire.LTS_Spawn _ []).
  - simpl. tauto.
  - reflexivity.
Defined.

Lemma spawned_value_loads_back_witness :
  Forall (fun c =>
            (SC_ContractID c = ContractWriteID /\
             exists w, contractWriteFromBytes bytes Wire.decodeWrite (SC_Value c) = (Some w, None)
                       /\ Wire.CheckProof w (SC_DarcID c) = None) \/
            (SC_ContractID c = ContractReadID /\
             fst (contractReadFromBytes (SC_Value c)) = None))
    [NewStateChange Create (bytes_of "#d") ContractWriteID (bytes_of "Wdarc-1")
       (bytes_of "darc-1")].
Proof.
  apply (spawned_value_loads_back bytes Wire.decodeWrite Wire.decodeRead Wire.CheckProof
           Wire.DeriveID Wire.state0
           (Wire.spawn "calypsoWrite" "write" (bytes_of "Wdarc-1")) [] _ []).
  reflexivity.
Defined.

End ReloadMore.

(** ** The chain-configuration client: what the object holds *)

Module ChainConfigMore.
Import ChainConfig.

Section Client.

Variable ByzCoinRPC : Type.
Variable ChainConfigData : Type.
Variable Signer : Type.
Variable Proof : Type.
Variable ClientTransaction : Type.

Variable ChainConfigData_new : Instance -> exn + ChainConfigData.
Variable toProto_toByteArray : ChainConfigData -> bytes.
Variable Instance_fromByzcoin : ByzCoinRPC -> bytes -> (exn + Instance) * ByzCoinRPC.
Variable Instance_fromProof : Proof -> exn + Instance.
Variable ClientTransaction_new : list Instruction -> ClientTransaction.
Variable signWith : ClientTransaction -> list Signer -> exn + ClientTransaction.
Variable sendTransaction : ByzCoinRPC -> ClientTransaction -> option exn * ByzCoinRPC.
Variable sendTransactionAndWait :
  ByzCoinRPC -> ClientTransaction -> Z -> option exn * ByzCoinRPC.

Local Abbreviation t := (ChainConfigInstance ChainConfigData).
Local Abbreviation load :=
  (fromByzcoin ByzCoinRPC ChainConfigData ChainConfigData_new Instance_fromByzcoin).
Local Abbreviation loadProof :=
  (fromByzcoin_proof ByzCoinRPC ChainConfigData Proof ChainConfigData_new Instance_fromProof).
Local Abbreviation refresh :=
  (update ByzCoinRPC ChainConfigData ChainConfigData_new Instance_fromByzcoin).
Local Abbreviation instruction :=
  (evolveChainConfigInstruction ChainConfigData toProto_toByteArray).

Local Abbreviation coherent :=
  (ChainConfigUse.coherent ChainConfigData ChainConfigData_new).

Lemma new_coherent (i : Instance) (this : t) :
  ChainConfigInstance_new ChainConfigData ChainConfigData_new i = inr this ->
  instance _ this = i /\ coherent this.
Proof.
  unfold ChainConfigInstance_new, ChainConfigUse.coherent.
  destruct (String.eqb (getContractId i) ContractId) eqn:Htag; simpl; [|done].
  destruct (ChainConfigData_new i) as [e|c] eqn:Hc; [done|].
  intros [= <-]. simpl. apply String.eqb_eq in Htag. done.
Qed.

(** X19. An object that a loader hands out is coherent: it holds the instance
    the service (or the proof) gave, that instance has the
    chain-configuration tag, and the cached configuration is the one read
    from it. *)
Theorem loaded_is_coherent (bc bc' : ByzCoinRPC) (p : Proof) (this : t) :
  load bc = (inr this, bc') \/ loadProof bc p = (inr this, bc') ->
  coherent this /\
  (load bc = (inr this, bc') ->
     Instance_fromByzcoin bc zeroInstanceId = (inr (instance _ this), bc')) /\
  (loadProof bc p = (inr this, bc') ->
     Instance_fromProof p = inr (instance _ this) /\ bc' = bc).
Proof.
  unfold fromByzcoin, fromByzcoin_proof. intros H.
  assert (Hc : coherent this).
  { destruct H as [H|H].
    - destruct (Instance_fromByzcoin bc zeroInstanceId) as [[e|i] bc1]; [done|].
      injection H as H _. by apply new_coherent in H as [_ ?].
    - destruct (Instance_fromProof p) as [e|i]; [done|].
      injection H as H _. by apply new_coherent in H as [_ ?]. }
  split; [done|]. split.
  - destruct (Instance_fromByzcoin bc zeroInstanceId) as [[e|i] bc1]; [done|].
    intros [= Hn ->]. by apply new_coherent in Hn as [-> _].
  - destruct (Instance_fromProof p) as [e|i]; [done|].
    intros [= Hn ->]. by apply new_coherent in Hn as [-> _].
Qed.

(** X20. [update] asks the service for the object's own identifier.  When
    the service fails the object is unchanged; when it answers, the instance
    is replaced at once, so that a configuration that cannot be read leaves
    the new instance beside the old configuration; when all goes well the
    cached configuration is the one read from the new instance. *)
Theorem update_outcomes (this : t) (bc : ByzCoinRPC) :
  let '(r, this', bc') :=
    update ByzCoinRPC ChainConfigData ChainConfigData_new Instance_fromByzcoin this bc in
  bc' = snd (Instance_fromByzcoin bc (getId (instance _ this))) /\
  match fst (Instance_fromByzcoin bc (getId (instance _ this))) with
  | inl e => r = Some e /\ this' = this
  | inr i =>
      instance _ this' = i /\
      match r with
      | Some e => ChainConfigData_new i = inl e /\ chainConfig _ this' = chainConfig _ this
      | None => ChainConfigData_new i = inr (chainConfig _ this')
      end
  end.
Proof.
  unfold update.
  destruct (Instance_fromByzcoin bc (getId (instance _ this))) as [[e|i] bc1]; simpl;
    [done|].
  by destruct (ChainConfigData_new i) as [e|c] eqn:Hc.
Qed.

(** X21. Against a service that answers a lookup with the instance of the
    identifier asked for, the object loaded by identifier sits at the all-zero
    identifier, [update] keeps it there, and every evolve instruction it
    builds targets that identifier, names the command "update_config" and
    carries the signer counters as given. *)
Theorem evolve_targets_zero (bc bc' bc1 : ByzCoinRPC) (this : t)
    (newConfig : ChainConfigData) (ownerCtrs : list Z) :
  (forall b id i b', Instance_fromByzcoin b id = (inr i, b') -> getId i = id) ->
  load bc = (inr this, bc') ->
  let ins := instruction this newConfig ownerCtrs in
  ins_id ins = zeroInstanceId /\
  ins_signerCounters ins = ownerCtrs /\
  inv_command (ins_invoke ins) = "update_config"%string /\
  inv_value (ins_invoke ins) = toProto_toByteArray newConfig /\
  getId (instance _ (snd (fst (refresh this bc1)))) = zeroInstanceId.
Proof.
  intros Hsvc Hload. unfold fromByzcoin in Hload.
  destruct (Instance_fromByzcoin bc zeroInstanceId) as [[e|i] b1] eqn:Hq; [done|].
  injection Hload as Hn ->. apply new_coherent in Hn as [Hi _].
  apply Hsvc in Hq. rewrite <- Hi in Hq.
  repeat split; try done.
  unfold update. rewrite Hq.
  destruct (Instance_fromByzcoin bc1 zeroInstanceId) as [[e|j] b2] eqn:Hq2; [done|].
  apply Hsvc in Hq2. by destruct (ChainConfigData_new j).
Qed.

End Client.

(** *** Against the logging service *)

Lemma loaded_is_coherent_witness :
  ChainConfigUse.coherent bytes Wire.configOf Wire.cached0 /\
  (fromByzcoin (list Wire.request) bytes Wire.configOf (Wire.lookup_in Wire.ledger0) []
   = (inr Wire.cached0, [Wire.Lookup zeroInstanceId]) ->
   Wire.lookup_in Wire.ledger0 [] zeroInstanceId
   = (inr (instance _ Wire.cached0), [Wire.Lookup zeroInstanceId])) /\
  (fromByzcoin_proof (list Wire.request) bytes (option Instance) Wire.configOf
     Wire.fromProof [] None
   = (inr Wire.cached0, [Wire.Lookup zeroInstanceId]) ->
   Wire.fromProof None = inr (instance _ Wire.cached0) /\
   [Wire.Lookup zeroInstanceId] = []).
Proof.
  apply (loaded_is_coherent (list Wire.request) bytes (option Instance) Wire.configOf
           (Wire.lookup_in Wire.ledger0) Wire.fromProof [] [Wire.Lookup zeroInstanceId]
           None Wire.cached0).
  left. reflexivity.
Defined.

Lemma lookup_in_faithful (ledger : gmap bytes Instance) :
  (forall id i, ledger !! id = Some i -> getId i = id) ->
  forall b id i b', Wire.lookup_in ledger b id = (inr i, b') -> getId i = id.
Proof.
  intros Hl b id i b'. unfold Wire.lookup_in.
  destruct (ledger !! id) as [j|] eqn:Hj; [|done].
  intros [= <- _]. by apply Hl.
Qed.

Lemma ledger0_faithful id i : Wire.ledger0 !! id = Some i -> getId i = id.
Proof.
  unfold Wire.ledger0. intros H.
  apply lookup_insert_Some in H as [[<- <-]|[_ H]]; [done|].
  apply lookup_insert_Some in H as [[<- <-]|[_ H]]; [done|].
  by rewrite lookup_empty in H.
Qed.

Lemma evolve_targets_zero_witness :
  ins_id (evolveChainConfigInstruction bytes (fun c => c) Wire.cached0 (bytes_of "v2") [7])
  = zeroInstanceId /\
  ins_signerCounters
    (evolveChainConfigInstruction bytes (fun c => c) Wire.cached0 (bytes_of "v2") [7]) = [7] /\
  inv_command (ins_invoke
    (evolveChainConfigInstruction bytes (fun c => c) Wire.cached0 (bytes_of "v2") [7]))
  = "update_config"%string /\
  inv_value (ins_invoke
    (evolveChainConfigInstruction bytes (fun c => c) Wire.cached0 (bytes_of "v2") [7]))
  = bytes_of "v2" /\
  getId (instance _ (snd (fst
    (update (list Wire.request) bytes Wire.configOf (Wire.lookup_in Wire.ledger0)
       Wire.cached0 [])))) = zeroInstanceId.
Proof.
  apply (evolve_targets_zero (list Wire.request) bytes Wire.configOf (fun c => c)
           (Wire.lookup_in Wire.ledger0) [] [Wire.Lookup zeroInstanceId] [] Wire.cached0
           (bytes_of "v2") [7]).
  - apply lookup_in_faithful, ledger0_faithful.
  - reflexivity.
Defined.

(** A ledger on which the all-zero instance has changed its tag: [update]
    takes it over, for it does not look at the tag. *)
Example update_takes_any_tag :
  update (list Wire.request) bytes Wire.configOf (Wire.lookup_in Wire.ledger_bad)
    Wire.cached0 []
  = (None,
     mkChainConfigInstance bytes (mkInstance zeroInstanceId "value" (bytes_of "42"))
       (bytes_of "42"),
     [Wire.Lookup zeroInstanceId]).
Proof. reflexivity. Qed.

End ChainConfigMore.

(** ** check.go: the verdict on a signature *)

Module CosiMore.
Import Cosi.

Section Check.

Variable Publics : Type.
Variable ServicePublics : Onet.Roster -> Publics.
Variable suiteHash : bytes -> bytes.
Variable Verify : bytes -> bytes -> Publics -> option string.
Variable signStatement : bytes -> Onet.Roster -> string + SignatureResponse.

Local Abbreviation verifyHash := (verifySignatureHash Publics ServicePublics suiteHash Verify).
Local Abbreviation check :=
  (checkRoster Publics ServicePublics suiteHash Verify signStatement).

Lemma verifyHash_None (msg : bytes) (sig : SignatureResponse) (ro : Onet.Roster) :
  verifyHash msg sig ro = None
  <-> suiteHash msg = Hash sig /\ Verify (Signature sig) msg (ServicePublics ro) = None.
Proof.
  unfold verifySignatureHash.
  destruct (bool_decide (suiteHash msg = Hash sig)) eqn:Hh; simpl.
  - apply bool_decide_eq_true_1 in Hh.
    destruct (Verify _ _ _); split; try done. by intros [_ ?].
  - apply bool_decide_eq_false_1 in Hh. split; [done|]. by intros [? _].
Qed.

(** X22. [verifySignatureHash] accepts exactly when the hash carried by the
    signature is the hash of the message and the signature verifies against
    the public keys of the roster; when the hash differs the signature is
    turned down as belonging to another file, whether it verifies or not. *)
Theorem verifySignatureHash_verdict (msg : bytes) (sig : SignatureResponse)
    (ro : Onet.Roster) :
  (verifyHash msg sig ro = None
     <-> suiteHash msg = Hash sig /\ Verify (Signature sig) msg (ServicePublics ro) = None) /\
  (suiteHash msg <> Hash sig ->
     exists e, verifyHash msg sig ro = Some e /\
               String.prefix "You are trying to verify a signature belonging to another file."
                 e = true) /\
  (suiteHash msg = Hash sig ->
     forall d, Verify (Signature sig) msg (ServicePublics ro) = Some d ->
     verifyHash msg sig ro = Some ("Invalid sig:" +:+ d)).
Proof.
  split; [apply verifyHash_None|]. unfold verifySignatureHash. split.
  - intros Hne. rewrite bool_decide_eq_false_2 by done. simpl. by eexists.
  - intros Heq d Hd. rewrite bool_decide_eq_true_2 by done. simpl. by rewrite Hd.
Qed.

(** X23. [checkRoster] runs off the end of [descs] exactly when there are
    fewer descriptions than members; otherwise it answers nil exactly when
    the roster produced a signature over the message "verification" whose
    hash is the hash of that message and which verifies, it hands back the
    error of a failed signing as it is, and it reports a signature that does
    not check as "Invalid signature". *)
Theorem checkRoster_verdict (ro : Onet.Roster) (descs : list string) (detail : bool) :
  (check ro descs detail = IndexOutOfRange
     <-> (length descs < length (Onet.List ro))%nat) /\
  (check ro descs detail = Done None
     <-> (length (Onet.List ro) <= length descs)%nat /\
         exists sig, signStatement (bytes_of "verification") ro = inr sig /\
                     suiteHash (bytes_of "verification") = Hash sig /\
                     Verify (Signature sig) (bytes_of "verification") (ServicePublics ro)
                     = None) /\
  (forall e, (length (Onet.List ro) <= length descs)%nat ->
     signStatement (bytes_of "verification") ro = inl e ->
     check ro descs detail = Done (Some e)) /\
  (forall sig e, (length (Onet.List ro) <= length descs)%nat ->
     signStatement (bytes_of "verification") ro = inr sig ->
     verifyHash (bytes_of "verification") sig ro = Some e ->
     check ro descs detail = Done (Some ("Invalid signature: " +:+ e))).
Proof.
  unfold checkRoster.
  destruct (length descs <? length (Onet.List ro))%nat eqn:Hlen.
  - apply Nat.ltb_lt in Hlen. split; [|split; [|split]].
    + done.
    + split; [done|]. intros [Hge _]. lia.
    + intros e Hge. lia.
    + intros sig e Hge. lia.
  - apply Nat.ltb_ge in Hlen. split; [|split; [|split]].
    + split; [|lia]. by destruct (signStatement _ _) as [|sig]; [|destruct (verifyHash _ _ _)].
    + destruct (signStatement _ ro) as [e|sig] eqn:Hs.
      * split; [done|]. by intros [_ [sig [? _]]].
      * pose proof (verifyHash_None (bytes_of "verification") sig ro) as Hv.
        destruct (verifyHash _ sig ro) as [e|] eqn:Hve.
        -- split; [done|]. intros [_ [sig' [[= <-] Hrest]]].
           apply Hv in Hrest. done.
        -- split; [|done]. intros _. split; [done|]. exists sig. split; [done|].
           by apply Hv.
    + intros e _ ->. done.
    + intros sig e _ -> ->. done.
Qed.

End Check.

Example check_toy_roster :
  checkRoster unit (fun _ => tt) Sample.toyHash Sample.toyVerify Sample.toySign
    (Wire.roster_of "ab") ["first"%string; "second"%string] false
  = Done None.
Proof. reflexivity. Qed.

Example check_toy_roster_short_descs :
  checkRoster unit (fun _ => tt) Sample.toyHash Sample.toyVerify Sample.toySign
    (Wire.roster_of "ab") ["first"%string] false
  = IndexOutOfRange.
Proof. reflexivity. Qed.

Example check_toy_roster_other_file :
  checkRoster unit (fun _ => tt) Sample.toyHash Sample.toyVerify Sample.toySignOther
    (Wire.roster_of "ab") ["first"%string; "second"%string] false
  = Done (Some ("Invalid signature: You are trying to verify a signature " +:+
                "belonging to another file. (The hash provided by the signature " +:+
                "doesn't match with the hash of the file.)")).
Proof. reflexivity. Qed.

End CosiMore.
